(** * Smash Messaging Endpoint: the mailbox registry and the handshake

    A shallow embedding of [src/src/server.ts] (with [last4] of
    [src/src/crypto.ts]) and the properties of the relay that the
    specification states about it.

    What is modelled, and how:
    - [REGISTERED_USERS] is a plain JavaScript object used as a map.  Its own
      properties are a [gmap string Mailbox]; its prototype chain is modelled
      too, because the code reads it with [REGISTERED_USERS[keyId]] (which
      follows the chain) and tests it with [Object.hasOwn] (which does not).
    - A [Socket] object is represented by a number (its identity).  What the
      server sends or does to a socket is recorded as a list of [Action]s, in
      program order.  An emit is the attempt to deliver; the transport is not
      part of the model.
    - The results of the WebCrypto calls (key import and export, key
      derivation, random bytes, encryption) come from outside the program:
      they are inputs of the connection handler ([Crypto]), and so is
      whether a call rejects.  What becomes of an exception that nothing
      catches is recorded ([Uncaught]) and otherwise left to the runtime.
    - Of socket.io the model takes three facts: a listener runs to its end
      before the next event is handled; events of a socket that is no longer
      connected, or for which the socket has no listener, are dropped; and
      [socket.disconnect(true)] closes the connection, upon which the
      socket's ['disconnect'] listener is called.
    - [console.log] output is not modelled.
    - Strings are byte strings; a [Buffer] is a [list byte]. *)

From stdpp Require Import gmap strings list.
From Stdlib Require Import ZArith.
From Stdlib.Strings Require Byte.
From Stdlib.Strings Require Import Ascii.

Local Open Scope Z_scope.

(** ** Buffer.toString('base64') *)

Module Base64.

Definition alphabet : string :=
  "ABCDEFGHIJKLMNOPQRSTUVWXYZabcdefghijklmnopqrstuvwxyz0123456789+/".

(** The character of a 6-bit group. *)
Definition digit (n : N) : Ascii.ascii :=
  default "="%char (String.get (N.to_nat (n mod 64)%N) alphabet).

Definition pad : Ascii.ascii := "="%char.

(** Three bytes as one 24-bit number. *)
Definition group (a b c : Byte.byte) : N :=
  (Byte.to_N a * 65536 + Byte.to_N b * 256 + Byte.to_N c)%N.

Fixpoint encode (bs : list Byte.byte) : string :=
  match bs with
  | [] => ""
  | [a] =>
      let n := group a Byte.x00 Byte.x00 in
      String (digit (n / 262144)) (String (digit (n / 4096))
        (String pad (String pad "")))
  | [a; b] =>
      let n := group a b Byte.x00 in
      String (digit (n / 262144)) (String (digit (n / 4096))
        (String (digit (n / 64)) (String pad "")))
  | a :: b :: c :: rest =>
      let n := group a b c in
      String (digit (n / 262144)) (String (digit (n / 4096))
        (String (digit (n / 64)) (String (digit n) (encode rest))))
  end.

End Base64.

(** [buf.toString(SME_CONFIG.challengeEncoding)], the encoding being
    ['base64']. *)
Definition toString_base64 (buf : list Byte.byte) : string := Base64.encode buf.

(** ** crypto.ts: last4 *)

(** [str.substring(str.length - 6, str.length - 2)].  [substring] reads a
    negative index as 0, which the truncated subtraction of [nat] does too;
    the start never exceeds the end, so the two are never swapped. *)
Definition last4 (str : string) : string :=
  let first := (String.length str - 6)%nat in
  let last := (String.length str - 2)%nat in
  String.substring first (last - first) str.

(** ** Sockets, envelopes and what the server does *)

(** The identity of a socket.io [Socket] object. *)
Definition Socket := nat.

(** The payload: [data: { length: number }], an object with a length; the
    relay never looks at the rest of it. *)
Record Data := mkData { length : Z; content : string }.

(** A queue entry, [[sessionId, data]]. *)
Definition Envelope : Type := string * Data.

(** The events the server emits to a client. *)
Inductive ServerEvent :=
| EvData (sessionId : string) (data : Data)
| EvError (code : Z) (message : string)
| EvChallenge (iv : string) (challenge : string).

(** What a handler does to the outside, in program order.  [Ack] is the
    call of the acknowledgement callback a client may pass with an event; it
    is part of what a listener could do, and no listener of server.ts does
    it. *)
Inductive Action :=
| Emit (to : Socket) (ev : ServerEvent)   (* socket.emit(...) *)
| Close (s : Socket)                      (* socket.disconnect(true) *)
| Ack (s : Socket)                        (* a call of the event's acknowledgement callback *)
| Reject (s : Socket)                     (* next(new Error(...)) in the middleware *)
| Uncaught (s : Socket).                  (* an exception leaving a listener or the connection handler *)

(** ** REGISTERED_USERS *)

(** [{ socket?: Socket, queue: [] }] *)
Record Mailbox := mkMailbox { socket : option Socket; queue : list Envelope }.

(** The object [REGISTERED_USERS]: its own properties and its prototype.
    [proto = None] is the prototype the object literal [{}] starts with,
    [Object.prototype].  The only way the program can change it is the
    assignment [REGISTERED_USERS["__proto__"] = {...}], which calls the
    [__proto__] setter: [proto = Some mb] then. *)
Record Registry := mkRegistry {
  own : gmap string Mailbox;
  proto : option Mailbox
}.

(** [const REGISTERED_USERS: RegisteredUsers = {}] *)
Definition empty_registry : Registry := mkRegistry ∅ None.

(** The property names of [Object.prototype] other than [__proto__]; all are
    functions. *)
Definition object_prototype_methods : list string :=
  [ "constructor"; "__defineGetter__"; "__defineSetter__"; "hasOwnProperty";
    "__lookupGetter__"; "__lookupSetter__"; "isPrototypeOf";
    "propertyIsEnumerable"; "toString"; "valueOf"; "toLocaleString" ]%string.

(** Which mailbox object a property read reached. *)
Inductive Ref := OwnRow (k : string) | ProtoObject.

(** The value of [REGISTERED_USERS[keyId]], as far as the program can tell
    values apart: [undefined], a mailbox object, or some other object (a
    function of [Object.prototype], [Object.prototype] itself, or a field of
    a mailbox that became the prototype).  The other objects are truthy and
    have no [queue] and no [socket] property. *)
Inductive Value :=
| VUndefined
| VMailbox (r : Ref) (mb : Mailbox)
| VOther.

(** [Object.hasOwn(REGISTERED_USERS, keyId)] *)
Definition hasOwn (R : Registry) (keyId : string) : bool :=
  bool_decide (is_Some (own R !! keyId)).

(** A read of [Object.prototype[keyId]] for [keyId] other than [__proto__]. *)
Definition object_prototype_get (keyId : string) : Value :=
  if bool_decide (keyId ∈ object_prototype_methods) then VOther else VUndefined.

(** [REGISTERED_USERS[keyId]]: the own property if there is one, else the
    prototype chain.  [__proto__] is an accessor of [Object.prototype] whose
    getter returns the prototype of [REGISTERED_USERS]. *)
Definition get (R : Registry) (keyId : string) : Value :=
  match own R !! keyId with
  | Some mb => VMailbox (OwnRow keyId) mb
  | None =>
      if bool_decide (keyId = "__proto__"%string) then
        match proto R with
        | Some mb => VMailbox ProtoObject mb
        | None => VOther
        end
      else
        match proto R with
        | Some mb =>
            if bool_decide (keyId = "socket"%string) then
              match socket mb with Some _ => VOther | None => VUndefined end
            else if bool_decide (keyId = "queue"%string) then VOther
            else object_prototype_get keyId
        | None => object_prototype_get keyId
        end
  end.

(** A write to a field of the mailbox object [r]. *)
Definition store (r : Ref) (mb : Mailbox) (R : Registry) : Registry :=
  match r with
  | OwnRow k => mkRegistry (<[k := mb]> (own R)) (proto R)
  | ProtoObject => mkRegistry (own R) (Some mb)
  end.

(** [REGISTERED_USERS[keyId] = mb]: an own property is created or replaced,
    except that [__proto__], when it is not an own property, goes to the
    setter, which makes [mb] the prototype. *)
Definition assign (keyId : string) (mb : Mailbox) (R : Registry) : Registry :=
  if bool_decide (keyId = "__proto__"%string) && negb (hasOwn R keyId)
  then mkRegistry (own R) (Some mb)
  else mkRegistry (<[keyId := mb]> (own R)) (proto R).

(** The mailbox that [REGISTERED_USERS[keyId]] is, if it is one. *)
Definition mailbox (R : Registry) (keyId : string) : option Mailbox :=
  match get R keyId with VMailbox _ mb => Some mb | _ => None end.

(** ** flushDataQueue, sendDataTo, registerMailBox *)

(** The loop of [flushDataQueue]:
    [while (recipient.queue.length) { shift; emit }].
    It returns the queue that is left and the emits made. *)
Fixpoint flush_loop (s : Socket) (q : list Envelope) : list Envelope * list Action :=
  match q with
  | [] => ([], [])
  | (sessionId, data) :: q' =>
      let '(rest, out) := flush_loop s q' in
      (rest, Emit s (EvData sessionId data) :: out)
  end.

Definition flushDataQueue (keyId : string) (R : Registry) : Registry * list Action :=
  match get R keyId with
  | VMailbox r recipient =>
      match socket recipient with
      | Some s =>
          let '(rest, out) := flush_loop s (queue recipient) in
          (store r (mkMailbox (Some s) rest) R, out)
      | None => (R, [])
      end
  | VUndefined | VOther => (R, [])
  end.

(** A statement either completes or throws. *)
Inductive Completion (A : Type) :=
| Normal (a : A)
| Throw.
Arguments Normal {A} a.
Arguments Throw {A}.

(** [REGISTERED_USERS[keyId]?.queue.push([sessionId, data]); flushDataQueue(keyId)].
    The [?.] skips the push when the read is [undefined]; on any other value
    [.queue.push] is evaluated, and throws a TypeError when [.queue] is
    [undefined]. *)
Definition sendDataTo (keyId sessionId : string) (data : Data) (R : Registry)
  : Completion (Registry * list Action) :=
  match get R keyId with
  | VUndefined => Normal (flushDataQueue keyId R)
  | VMailbox r mb =>
      Normal (flushDataQueue keyId
                (store r (mkMailbox (socket mb) (queue mb ++ [(sessionId, data)])) R))
  | VOther => Throw
  end.

(** In the first branch [REGISTERED_USERS[keyId]] is the own property that
    [Object.hasOwn] found, a mailbox; the other results of the read do not
    occur there. *)
Definition registerMailBox (keyId : string) (recipientSocket : Socket) (R : Registry)
  : Registry * list Action :=
  let alreadyRegistered := hasOwn R keyId in
  if alreadyRegistered then
    match get R keyId with
    | VMailbox r mb =>
        flushDataQueue keyId (store r (mkMailbox (Some recipientSocket) (queue mb)) R)
    | VUndefined | VOther => (R, [])
    end
  else (assign keyId (mkMailbox (Some recipientSocket) []) R, []).

(** The body of the ['disconnect'] listener:
    [if (REGISTERED_USERS[clientKeyId]) REGISTERED_USERS[clientKeyId].socket = undefined].
    On another object than a mailbox the write adds a [socket] property with
    value [undefined] to it, which no read of the program can tell from the
    property being absent. *)
Definition unbind (clientKeyId : string) (R : Registry) : Registry :=
  match get R clientKeyId with
  | VMailbox r mb => store r (mkMailbox None (queue mb)) R
  | VUndefined | VOther => R
  end.

(** ** The connection handler and its listeners *)

(** What the client presents when it opens a connection:
    [socket.handshake.auth.key], and the transport's [socket.recovered].
    socket.io sets [recovered] only when connection state recovery is
    enabled; [new Server(server)] does not enable it. *)
Record Handshake := mkHandshake { key : option string; recovered : bool }.

(** [!!socket.handshake.auth.key]: a missing key and the empty string are
    falsy. *)
Definition truthy (k : option string) : bool :=
  match k with
  | Some s => negb (String.eqb s "")
  | None => false
  end.

(** The outcomes of the WebCrypto calls made for one connection, in program
    order.  [spki] is what [subtle.exportKey('spki', _)] returns for the
    imported client key, [None] when [importKey] rejects the key.  [symKey]
    tells whether [subtle.deriveKey] fulfils: its algorithm is
    [socket.handshake.auth.keyAlgorithm], which the client chooses, completed
    with the client key, and the call rejects when that is not an algorithm
    the keys can be used with.  [iv] and [challenge] are the two
    [crypto.getRandomValues(new Uint8Array(12))].  [encryptedChallenge] is
    the result of [subtle.encrypt], [None] when it rejects. *)
Record Crypto := mkCrypto {
  spki : option (list Byte.byte);
  symKey : bool;
  iv : list Byte.byte;
  challenge : list Byte.byte;
  encryptedChallenge : option (list Byte.byte)
}.

(** What the closures of one connection hold once the connection handler
    has run to its end: [clientKeyId]; [challengeBuf] when the ['register']
    listener was installed ([None]: there is no such listener on this
    socket); and whether the socket is still connected.  Such a socket has
    the ['data'] and the ['disconnect'] listener. *)
Record Conn := mkConn {
  clientKeyId : string;
  challengeBuf : option (list Byte.byte);
  connected : bool
}.

(** [sockets]: the sockets whose connection handler has run to its end.
    [halted]: the sockets whose connection handler was stopped by the
    rejection of [subtle.deriveKey] or [subtle.encrypt].  At that point the
    handler has installed the ['data'] listener and nothing else: such a
    socket has neither a ['register'] nor a ['disconnect'] listener.  The
    value tells whether the socket is still connected. *)
Record Server := mkServer {
  REGISTERED_USERS : Registry;
  sockets : gmap Socket Conn;
  halted : gmap Socket bool
}.

(** The state [start] sets up before any connection. *)
Definition initial : Server := mkServer empty_registry ∅ ∅.

Definition set_registry (st : Server) (R : Registry) : Server :=
  mkServer R (sockets st) (halted st).

Definition set_conn (st : Server) (sock : Socket) (c : Conn) : Server :=
  mkServer (REGISTERED_USERS st) (<[sock := c]> (sockets st)) (halted st).

Definition set_halted (st : Server) (sock : Socket) (live : bool) : Server :=
  mkServer (REGISTERED_USERS st) (sockets st) (<[sock := live]> (halted st)).

(** [socket.on('data', (peerId, sessionId, data) => ...)] *)
Definition on_data (sock : Socket) (peerId sessionId : string) (data : Data)
    (st : Server) : Server * list Action :=
  if negb (hasOwn (REGISTERED_USERS st) peerId) then
    (st, [Emit sock (EvError 404 ("Peer " +:+ last4 peerId +:+ " not found"))])
  else
    match sendDataTo peerId sessionId data (REGISTERED_USERS st) with
    | Normal (R, out) => (set_registry st R, out)
    | Throw => (st, [Uncaught sock])
    end.

(** [socket.on('disconnect', () => ...)] *)
Definition on_disconnect (sock : Socket) (c : Conn) (st : Server) : Server :=
  set_conn (set_registry st (unbind (clientKeyId c) (REGISTERED_USERS st)))
           sock (mkConn (clientKeyId c) (challengeBuf c) false).

(** [socket.on('register', async (solvedChallengeAsString) => ...)], the
    listener installed with [challengeBuf = buf].  [socket.disconnect(true)]
    closes the connection, upon which socket.io calls the socket's
    ['disconnect'] listener. *)
Definition on_register (sock : Socket) (c : Conn) (buf : list Byte.byte)
    (solvedChallengeAsString : string) (st : Server) : Server * list Action :=
  if String.eqb solvedChallengeAsString (toString_base64 buf) then
    let '(R, out) := registerMailBox (clientKeyId c) sock (REGISTERED_USERS st) in
    (set_registry st R, out)
  else
    (on_disconnect sock c st, [Close sock]).

(** [io.use(...)] followed by [io.on('connection', async (socket) => ...)].
    The middleware refuses the connection when a key is presented that
    [importKey] rejects.  The handler touches [REGISTERED_USERS] nowhere, so
    it is taken as one step, at its end.  For a key that is presented on a
    connection that is not a recovered one, the handler awaits
    [subtle.deriveKey] and [subtle.encrypt] after it has installed the
    ['data'] listener and before it installs the ['register'] listener,
    emits the challenge and installs the ['disconnect'] listener: when one of
    the two rejects, the handler ends there, with the rejection. *)
Definition on_connection (sock : Socket) (h : Handshake) (cr : Crypto)
    (st : Server) : Server * list Action :=
  let auth := truthy (key h) in
  match auth, spki cr with
  | true, None => (st, [Reject sock])
  | _, exported =>
      let clientKeyId :=
        match auth, exported with
        | true, Some bytes => toString_base64 bytes
        | _, _ => "ANONYMOUS"%string
        end in
      if negb (recovered h) && auth then
        match symKey cr, encryptedChallenge cr with
        | true, Some encrypted =>
            (set_conn st sock (mkConn clientKeyId (Some (challenge cr)) true),
             [Emit sock (EvChallenge (toString_base64 (iv cr))
                                     (toString_base64 encrypted))])
        | _, _ => (set_halted st sock true, [Uncaught sock])
        end
      else
        (set_conn st sock (mkConn clientKeyId None true), [])
  end.

(** What reaches the server from a client socket.  [ack] tells whether the
    client passed an acknowledgement callback with the event; the listeners
    above declare no parameter for it. *)
Inductive ClientEvent :=
| Connection (h : Handshake) (cr : Crypto)
| DataEvent (peerId sessionId : string) (data : Data) (ack : bool)
| RegisterEvent (solvedChallengeAsString : string) (ack : bool)
| DisconnectEvent.

(** One event of one socket.  A [Socket] object is created per connection,
    so a connection event for a known socket does not occur (for a socket in
    [sockets] it is dropped); events of a
    socket that is not connected, or for which no listener is installed
    (['register'] on a socket that was not challenged, any event before the
    connection handler has installed its listeners), are dropped by
    socket.io.  A socket whose connection handler was stopped has the
    ['data'] listener only; when it disconnects no listener is called.
    The arguments of an event have the types the listeners declare:
    [peerId] and [sessionId] are strings and [data] is an object.  (The
    ['data'] listener does not check them: on a [peerId] that is not a
    string [last4] throws, and without [data] the read of [data.length]
    throws.  Such events are left out here.) *)
Definition step (st : Server) (sock : Socket) (ev : ClientEvent) : Server * list Action :=
  match ev, sockets st !! sock with
  | Connection h cr, None => on_connection sock h cr st
  | Connection _ _, Some _ => (st, [])
  | DataEvent peerId sessionId data _, None =>
      match halted st !! sock with
      | Some true => on_data sock peerId sessionId data st
      | _ => (st, [])
      end
  | RegisterEvent _ _, None => (st, [])
  | DisconnectEvent, None =>
      match halted st !! sock with
      | Some true => (set_halted st sock false, [])
      | _ => (st, [])
      end
  | DataEvent peerId sessionId data _, Some c =>
      if connected c then on_data sock peerId sessionId data st else (st, [])
  | RegisterEvent solved _, Some c =>
      if connected c then
        match challengeBuf c with
        | Some buf => on_register sock c buf solved st
        | None => (st, [])
        end
      else (st, [])
  | DisconnectEvent, Some c =>
      if connected c then (on_disconnect sock c st, []) else (st, [])
  end.

(** A run of the server: the events are handled one after the other. *)
Fixpoint run (st : Server) (evs : list (Socket * ClientEvent)) : Server * list Action :=
  match evs with
  | [] => (st, [])
  | (sock, ev) :: evs' =>
      let '(st1, out1) := step st sock ev in
      let '(st2, out2) := run st1 evs' in
      (st2, out1 ++ out2)
  end.

(** ** The registry operations, one at a time *)

(** The three operations that touch [REGISTERED_USERS]: [registerMailBox],
    [sendDataTo], and the write of the ['disconnect'] listener. *)
Inductive RegistryOp :=
| OpRegister (keyId : string) (recipientSocket : Socket)
| OpSend (keyId sessionId : string) (data : Data)
| OpUnbind (clientKeyId : string).

(** The registry once the operation has completed.  [sendDataTo] throws
    before it has written anything. *)
Definition apply_op (R : Registry) (op : RegistryOp) : Registry :=
  match op with
  | OpRegister keyId s => (registerMailBox keyId s R).1
  | OpSend keyId sessionId data =>
      match sendDataTo keyId sessionId data R with
      | Normal (R', _) => R'
      | Throw => R
      end
  | OpUnbind k => unbind k R
  end.

(** The mailbox objects the registry holds. *)
Definition is_mailbox (R : Registry) (mb : Mailbox) : Prop :=
  (exists k, own R !! k = Some mb) \/ proto R = Some mb.

(** No envelope waits in a mailbox that has a live connection. *)
Definition quiescent (R : Registry) : Prop :=
  forall mb, is_mailbox R mb -> is_Some (socket mb) -> queue mb = [].

(** The delivery of one envelope to a socket. *)
Definition deliver (s : Socket) (e : Envelope) : Action :=
  Emit s (EvData e.1 e.2).

(** ** Sample data, for the concrete instances below *)

Module Sample.

Definition m0 : Envelope := ("t0"%string, mkData 5 "zero").
Definition m1 : Envelope := ("t1"%string, mkData 42 "one").
Definition m2 : Envelope := ("t2"%string, mkData 3 "two").
Definition m3 : Envelope := ("t3"%string, mkData 7 "three").

(** The bytes of an exported client key and the identity made of them. *)
Definition alice_spki : list Byte.byte := [Byte.x30; Byte.x59; Byte.x30; Byte.x13; Byte.x06; Byte.x07].
Definition alice : string := toString_base64 alice_spki.

(** The bytes of another exported key; no connection presents it. *)
Definition bob_spki : list Byte.byte :=
  [Byte.x30; Byte.x59; Byte.x30; Byte.x13; Byte.x06; Byte.x07; Byte.x2a; Byte.x86;
   Byte.x48; Byte.xce; Byte.x3d; Byte.x02; Byte.x01; Byte.x06; Byte.x08; Byte.x2a].

(** [alice]'s mailbox without a live connection, one envelope waiting. *)
Definition offline_with_mail : Registry :=
  mkRegistry {[ alice := mkMailbox None [m0] ]} None.

(** [alice]'s mailbox without a live connection, nothing waiting. *)
Definition offline : Registry :=
  mkRegistry {[ alice := mkMailbox None [] ]} None.

(** A history of registry operations for [alice]. *)
Definition history : list RegistryOp :=
  [ OpRegister alice 1%nat; OpUnbind alice;
    OpSend alice "t1" (mkData 42 "one"); OpRegister alice 2%nat ].

(** [alice] opens a connection with her key; the relay draws [nonce]. *)
Definition nonce : list Byte.byte :=
  [Byte.x01; Byte.x02; Byte.x03; Byte.x04; Byte.x05; Byte.x06;
   Byte.x07; Byte.x08; Byte.x09; Byte.x0a; Byte.x0b; Byte.x0c].
Definition credentials : Handshake := mkHandshake (Some alice) false.
Definition crypto : Crypto :=
  mkCrypto (Some alice_spki) true [Byte.xaa; Byte.xbb; Byte.xcc] nonce
           (Some [Byte.xde; Byte.xad]).
Definition alice_conn : Conn := mkConn alice (Some nonce) true.

(** [alice]'s key, with a [keyAlgorithm] for which [subtle.deriveKey]
    rejects: nothing is drawn or encrypted. *)
Definition no_shared_key : Crypto := mkCrypto (Some alice_spki) false [] [] None.

(** Socket 1 registered [alice] and was disconnected. *)
Definition after_disconnect : Server :=
  (run initial [ (1%nat, Connection credentials crypto);
                 (1%nat, RegisterEvent (toString_base64 nonce) false);
                 (1%nat, DisconnectEvent) ]).1.

(** Socket 1 is [alice]'s and registered; socket 2 presents her key too and
    is challenged, but never answers. *)
Definition with_impostor : Server :=
  (run initial [ (1%nat, Connection credentials crypto);
                 (1%nat, RegisterEvent (toString_base64 nonce) false);
                 (2%nat, Connection credentials crypto) ]).1.

(** Socket 5 connects without a key. *)
Definition no_credentials : Handshake := mkHandshake None false.
Definition no_crypto : Crypto := mkCrypto None false [] [] None.
Definition anonymous_conn : Conn := mkConn "ANONYMOUS" None true.

(** Socket 1 is [alice]'s and registered. *)
Definition registration : list (Socket * ClientEvent) :=
  [ (1%nat, Connection credentials crypto);
    (1%nat, RegisterEvent (toString_base64 nonce) false) ].
Definition registered : Server := (run initial registration).1.

(** [alice] registered through socket 1, which was then disconnected; socket
    5 has connected without a key. *)
Definition with_sender : Server :=
  (step after_disconnect 5%nat (Connection no_credentials no_crypto)).1.

End Sample.

(** ** What holds of the server between two events *)

(** A socket bound in some mailbox. *)
Definition bound (R : Registry) (s : Socket) : Prop :=
  exists mb, is_mailbox R mb /\ socket mb = Some s.

Record consistent (st : Server) : Prop := mkConsistent {
  (** no envelope waits in a mailbox that has a live connection; *)
  consistent_quiescent : quiescent (REGISTERED_USERS st);
  (** the prototype of [REGISTERED_USERS] is [Object.prototype]; *)
  consistent_proto : proto (REGISTERED_USERS st) = None;
  (** the rows are named by the base64 text of exported keys; *)
  consistent_rows : forall k,
    is_Some (own (REGISTERED_USERS st) !! k) -> exists bytes, k = toString_base64 bytes;
  (** so are the sockets that have a ['register'] listener; *)
  consistent_listeners : forall s c,
    sockets st !! s = Some c -> is_Some (challengeBuf c) ->
    exists bytes, clientKeyId c = toString_base64 bytes;
  (** and a socket bound in a mailbox has a ['register'] listener. *)
  consistent_bound : forall s,
    bound (REGISTERED_USERS st) s ->
    exists c, sockets st !! s = Some c /\ is_Some (challengeBuf c)
}.

(** ** crypto.ts in its later form: last4 *)

(** [str.replaceAll('=', '')] *)
Fixpoint remove_padding (str : string) : string :=
  match str with
  | EmptyString => EmptyString
  | String c rest =>
      if Ascii.eqb c "="%char then remove_padding rest
      else String c (remove_padding rest)
  end.

(** [last4] as src/unnamed/part_002 has it:
    [const trimmed = str.replaceAll('=', '');
     return trimmed.substring(trimmed.length - 4, trimmed.length)]. *)
Definition last4_trimmed (str : string) : string :=
  let trimmed := remove_padding str in
  let first := (String.length trimmed - 4)%nat in
  String.substring first (String.length trimmed - first) trimmed.

(** ** What the statements below observe *)

(** The position of a character in the base64 alphabet, counted from [i];
    [None] for a character that is not in it, such as the padding. *)
Fixpoint index_from (i : N) (c : Ascii.ascii) (s : string) : option N :=
  match s with
  | EmptyString => None
  | String c' rest => if Ascii.eqb c c' then Some i else index_from (i + 1)%N c rest
  end.

Definition base64_value (c : Ascii.ascii) : option N :=
  index_from 0%N c Base64.alphabet.

(** The envelopes of the ['data'] events among some actions, in order. *)
Fixpoint envelopes_of (out : list Action) : list Envelope :=
  match out with
  | [] => []
  | Emit _ (EvData sessionId data) :: out' => (sessionId, data) :: envelopes_of out'
  | _ :: out' => envelopes_of out'
  end.

(** The queue of the row of an identity; empty when it has no row. *)
Definition waiting (R : Registry) (I : string) : list Envelope :=
  match own R !! I with
  | Some mb => queue mb
  | None => []
  end.

(** Whether an event is about the mailbox of [I]: a ['data'] event that
    names [I], or a ['register'] event of a socket whose identity is [I]. *)
Definition concerns (st : Server) (sock : Socket) (ev : ClientEvent) (I : string) : bool :=
  match ev with
  | DataEvent peerId _ _ _ => String.eqb peerId I
  | RegisterEvent _ _ =>
      match sockets st !! sock with
      | Some c => String.eqb (clientKeyId c) I
      | None => false
      end
  | Connection _ _ | DisconnectEvent => false
  end.

(** Whether the ['data'] listener of a socket is called for a ['data']
    event: the socket has the listener and is connected. *)
Definition data_listener (st : Server) (sock : Socket) : bool :=
  match sockets st !! sock with
  | Some c => connected c
  | None => default false (halted st !! sock)
  end.

(** The envelope the relay takes for [I] with an event: that of a ['data']
    event of a connected socket that names [I] while [I] has a row. *)
Definition accepted_by (st : Server) (sock : Socket) (ev : ClientEvent) (I : string)
  : list Envelope :=
  match ev with
  | DataEvent peerId sessionId data _ =>
      if data_listener st sock && hasOwn (REGISTERED_USERS st) peerId && String.eqb peerId I
      then [(sessionId, data)] else []
  | _ => []
  end.

(** The envelopes taken for [I], and those emitted for [I], over a run. *)
Fixpoint accepted_for (I : string) (st : Server) (evs : list (Socket * ClientEvent))
  : list Envelope :=
  match evs with
  | [] => []
  | (sock, ev) :: evs' =>
      accepted_by st sock ev I ++ accepted_for I (step st sock ev).1 evs'
  end.

Fixpoint delivered_for (I : string) (st : Server) (evs : list (Socket * ClientEvent))
  : list Envelope :=
  match evs with
  | [] => []
  | (sock, ev) :: evs' =>
      (if concerns st sock ev I then envelopes_of (step st sock ev).2 else [])
        ++ delivered_for I (step st sock ev).1 evs'
  end.

(** Whether an action is a challenge emitted to [sock]. *)
Definition is_challenge_for (sock : Socket) (a : Action) : bool :=
  match a with
  | Emit s (EvChallenge _ _) => bool_decide (s = sock)
  | _ => false
  end.

(** A mailbox with a live connection is held by a socket that is connected,
    whose identity is the name of the row, and that has answered its
    challenge, among the events [past], with the base64 text of the nonce. *)
Definition held_by_owners (past : list (Socket * ClientEvent)) (st : Server) : Prop :=
  forall I mb s,
    own (REGISTERED_USERS st) !! I = Some mb -> socket mb = Some s ->
    exists c buf ack,
      sockets st !! s = Some c /\ connected c = true /\ clientKeyId c = I /\
      challengeBuf c = Some buf /\
      (s, RegisterEvent (toString_base64 buf) ack) ∈ past.

(** * Properties *)

(** ** Test vectors *)

Example base64_Man : toString_base64 [Byte.x4d; Byte.x61; Byte.x6e] = "TWFu"%string.
Proof. reflexivity. Qed.
Example base64_Ma : toString_base64 [Byte.x4d; Byte.x61] = "TWE="%string.
Proof. reflexivity. Qed.
Example base64_M : toString_base64 [Byte.x4d] = "TQ=="%string.
Proof. reflexivity. Qed.
Example last4_ex1 : last4 "abcdefgh==" = "efgh"%string.
Proof. reflexivity. Qed.
Example last4_ex2 : last4 "a==" = "a"%string.
Proof. reflexivity. Qed.
Example last4_ex3 : last4 "==" = ""%string.
Proof. reflexivity. Qed.
Example base64_nonce : toString_base64 Sample.nonce = "AQIDBAUGBwgJCgsM"%string.
Proof. reflexivity. Qed.


(** ** Reading and writing the registry *)

Lemma flush_loop_spec (s : Socket) (q : list Envelope) :
  flush_loop s q = ([], map (deliver s) q).
Proof.
  induction q as [|[sessionId data] q IH]; simpl; [done|].
  by rewrite IH.
Qed.

Lemma hasOwn_true (R : Registry) (k : string) :
  hasOwn R k = true <-> is_Some (own R !! k).
Proof. unfold hasOwn. by rewrite bool_decide_eq_true. Qed.

Lemma hasOwn_false (R : Registry) (k : string) :
  hasOwn R k = false <-> own R !! k = None.
Proof.
  unfold hasOwn. rewrite bool_decide_eq_false.
  by rewrite eq_None_not_Some.
Qed.

Lemma get_own (R : Registry) (k : string) (mb : Mailbox) :
  own R !! k = Some mb -> get R k = VMailbox (OwnRow k) mb.
Proof. intros H. unfold get. by rewrite H. Qed.

Lemma mailbox_own (R : Registry) (k : string) (mb : Mailbox) :
  own R !! k = Some mb -> mailbox R k = Some mb.
Proof. intros H. unfold mailbox. by rewrite (get_own _ _ _ H). Qed.

(** What a read of [REGISTERED_USERS[keyId]] that reaches a mailbox reached. *)
Lemma get_mailbox_inv (R : Registry) (k : string) (r : Ref) (mb : Mailbox) :
  get R k = VMailbox r mb ->
  (r = OwnRow k /\ own R !! k = Some mb) \/
  (r = ProtoObject /\ own R !! k = None /\ k = "__proto__"%string /\ proto R = Some mb).
Proof.
  unfold get, object_prototype_get. intros H.
  destruct (own R !! k) as [mb'|] eqn:Hown.
  - left. by simplify_eq.
  - right. repeat case_bool_decide; repeat case_match; simplify_eq; done.
Qed.

(** A write through the reference a read returned is seen by the next read. *)
Lemma get_store (R : Registry) (k : string) (r : Ref) (mb mb' : Mailbox) :
  get R k = VMailbox r mb -> get (store r mb' R) k = VMailbox r mb'.
Proof.
  intros H. destruct (get_mailbox_inv _ _ _ _ H) as [[-> Hown]|(-> & Hown & -> & Hp)].
  - apply get_own. simpl. apply lookup_insert_eq.
  - unfold get, store; simpl. rewrite Hown. done.
Qed.

Lemma store_store (R : Registry) (r : Ref) (mb mb' : Mailbox) :
  store r mb' (store r mb R) = store r mb' R.
Proof.
  destruct r; unfold store; simpl; [|done].
  by rewrite insert_insert_eq.
Qed.

Lemma store_id (R : Registry) (k : string) (r : Ref) (mb : Mailbox) :
  get R k = VMailbox r mb -> store r mb R = R.
Proof.
  intros H. destruct (get_mailbox_inv _ _ _ _ H) as [[-> Hown]|(-> & Hown & -> & Hp)];
    destruct R as [o p]; unfold store; simpl in *.
  - by rewrite insert_id.
  - by rewrite Hp.
Qed.

(** ** flushDataQueue, sendDataTo and registerMailBox on a mailbox *)

Lemma flushDataQueue_bound (R : Registry) (k : string) (r : Ref) (mb : Mailbox) (s : Socket) :
  get R k = VMailbox r mb -> socket mb = Some s ->
  flushDataQueue k R = (store r (mkMailbox (Some s) []) R, map (deliver s) (queue mb)).
Proof.
  intros Hget Hs. unfold flushDataQueue. rewrite Hget, Hs.
  by rewrite flush_loop_spec.
Qed.

Lemma flushDataQueue_unbound (R : Registry) (k : string) (r : Ref) (mb : Mailbox) :
  get R k = VMailbox r mb -> socket mb = None -> flushDataQueue k R = (R, []).
Proof. intros Hget Hs. unfold flushDataQueue. by rewrite Hget, Hs. Qed.

Lemma flushDataQueue_no_mailbox (R : Registry) (k : string) :
  mailbox R k = None -> flushDataQueue k R = (R, []).
Proof.
  unfold mailbox, flushDataQueue. by destruct (get R k).
Qed.

(** Every emit of a flush goes to the socket bound in the mailbox. *)
Lemma flushDataQueue_emits (R : Registry) (k : string) :
  (flushDataQueue k R).2 =
    match mailbox R k with
    | Some mb =>
        match socket mb with
        | Some s => map (deliver s) (queue mb)
        | None => []
        end
    | None => []
    end.
Proof.
  unfold mailbox. destruct (get R k) as [|r mb|] eqn:Hget.
  - by rewrite flushDataQueue_no_mailbox by (unfold mailbox; by rewrite Hget).
  - destruct (socket mb) as [s|] eqn:Hs.
    + by rewrite (flushDataQueue_bound _ _ _ _ _ Hget Hs).
    + by rewrite (flushDataQueue_unbound _ _ _ _ Hget Hs).
  - by rewrite flushDataQueue_no_mailbox by (unfold mailbox; by rewrite Hget).
Qed.

(** An enqueue for a mailbox without a live connection only appends. *)
Lemma sendDataTo_unbound (R : Registry) (k sessionId : string) (data : Data)
    (r : Ref) (mb : Mailbox) :
  get R k = VMailbox r mb -> socket mb = None ->
  sendDataTo k sessionId data R =
    Normal (store r (mkMailbox None (queue mb ++ [(sessionId, data)])) R, []).
Proof.
  intros Hget Hs. unfold sendDataTo. rewrite Hget, Hs.
  erewrite flushDataQueue_unbound; [done|by apply (get_store _ _ _ mb)|done].
Qed.

(** An enqueue for a mailbox with a live connection delivers at once, after
    whatever was waiting. *)
Lemma sendDataTo_bound (R : Registry) (k sessionId : string) (data : Data)
    (r : Ref) (mb : Mailbox) (s : Socket) :
  get R k = VMailbox r mb -> socket mb = Some s ->
  sendDataTo k sessionId data R =
    Normal (store r (mkMailbox (Some s) []) R,
            map (deliver s) (queue mb ++ [(sessionId, data)])).
Proof.
  intros Hget Hs. unfold sendDataTo. rewrite Hget, Hs.
  erewrite flushDataQueue_bound; [|by apply (get_store _ _ _ mb)|done].
  by rewrite store_store.
Qed.

(** After [registerMailBox] the identity's mailbox is bound to the socket and
    its queue is empty. *)
Lemma registerMailBox_binds (R : Registry) (k : string) (s : Socket) :
  mailbox (registerMailBox k s R).1 k = Some (mkMailbox (Some s) []).
Proof.
  unfold registerMailBox. destruct (hasOwn R k) eqn:Hown.
  - apply hasOwn_true in Hown as [mb Hmb]. rewrite (get_own _ _ _ Hmb).
    erewrite flushDataQueue_bound; [|apply get_own; simpl; apply lookup_insert_eq|done].
    simpl. apply mailbox_own. simpl. apply lookup_insert_eq.
  - simpl. unfold assign. rewrite Hown. simpl.
    case_bool_decide as Hk; simpl.
    + subst. apply hasOwn_false in Hown. unfold mailbox, get. simpl.
      by rewrite Hown.
    + apply mailbox_own. simpl. apply lookup_insert_eq.
Qed.

(** [registerMailBox] for an identity that has a row: the socket is bound and
    the queue is flushed to it, in order. *)
Lemma registerMailBox_existing (R : Registry) (k : string) (s : Socket) (mb : Mailbox) :
  own R !! k = Some mb ->
  registerMailBox k s R =
    (store (OwnRow k) (mkMailbox (Some s) []) R, map (deliver s) (queue mb)).
Proof.
  intros Hmb. unfold registerMailBox.
  rewrite (proj2 (hasOwn_true R k)) by eauto. rewrite (get_own _ _ _ Hmb).
  erewrite flushDataQueue_bound; [|apply get_own; simpl; apply lookup_insert_eq|done].
  by rewrite store_store.
Qed.

(** ** Ordered delivery of what was queued while offline *)

(** C1, as the code has it: for an identity whose mailbox has no live
    connection, three enqueues only append to the queue, and the registration
    that binds a connection then delivers to that connection the envelopes
    that were already waiting followed by the three new ones, in that order
    and once each (exactly the three when nothing was waiting); the queue is
    empty afterwards, so a later flush repeats none of them. *)
Theorem offline_queue_delivered_in_order
    (R : Registry) (I : string) (mb : Mailbox) (c : Socket)
    (s1 s2 s3 : string) (d1 d2 d3 : Data) :
  own R !! I = Some mb ->
  socket mb = None ->
  exists R1 R2 R3 R4,
    sendDataTo I s1 d1 R = Normal (R1, []) /\
    sendDataTo I s2 d2 R1 = Normal (R2, []) /\
    sendDataTo I s3 d3 R2 = Normal (R3, []) /\
    registerMailBox I c R3 =
      (R4, map (deliver c) (queue mb)
             ++ [Emit c (EvData s1 d1); Emit c (EvData s2 d2); Emit c (EvData s3 d3)]) /\
    mailbox R4 I = Some (mkMailbox (Some c) []) /\
    flushDataQueue I R4 = (R4, []).
Proof.
  intros Hmb Hs.
  pose (q1 := queue mb ++ [(s1, d1)]).
  pose (q2 := q1 ++ [(s2, d2)]).
  pose (q3 := q2 ++ [(s3, d3)]).
  pose (R1 := store (OwnRow I) (mkMailbox None q1) R).
  pose (R2 := store (OwnRow I) (mkMailbox None q2) R1).
  pose (R3 := store (OwnRow I) (mkMailbox None q3) R2).
  assert (H1 : own R1 !! I = Some (mkMailbox None q1)) by apply lookup_insert_eq.
  assert (H2 : own R2 !! I = Some (mkMailbox None q2)) by apply lookup_insert_eq.
  assert (H3 : own R3 !! I = Some (mkMailbox None q3)) by apply lookup_insert_eq.
  exists R1, R2, R3, (store (OwnRow I) (mkMailbox (Some c) []) R3).
  split; [by apply (sendDataTo_unbound R I s1 d1 _ mb); [apply get_own|]|].
  split; [by apply (sendDataTo_unbound R1 I s2 d2 _ _ (get_own _ _ _ H1))|].
  split; [by apply (sendDataTo_unbound R2 I s3 d3 _ _ (get_own _ _ _ H2))|].
  split.
  { rewrite (registerMailBox_existing _ _ _ _ H3). simpl. f_equal.
    unfold q3, q2, q1. rewrite !map_app. by rewrite <- !app_assoc. }
  split; [apply mailbox_own, lookup_insert_eq|].
  erewrite flushDataQueue_bound; [|apply get_own, lookup_insert_eq|done].
  by rewrite store_store.
Qed.

Lemma offline_queue_delivered_in_order_witness :
  exists R1 R2 R3 R4,
    sendDataTo Sample.alice "t1" (mkData 42 "one") Sample.offline = Normal (R1, []) /\
    sendDataTo Sample.alice "t2" (mkData 3 "two") R1 = Normal (R2, []) /\
    sendDataTo Sample.alice "t3" (mkData 7 "three") R2 = Normal (R3, []) /\
    registerMailBox Sample.alice 7%nat R3 =
      (R4, map (deliver 7%nat) (queue (mkMailbox None []))
             ++ [Emit 7%nat (EvData "t1" (mkData 42 "one"));
                 Emit 7%nat (EvData "t2" (mkData 3 "two"));
                 Emit 7%nat (EvData "t3" (mkData 7 "three"))]) /\
    mailbox R4 Sample.alice = Some (mkMailbox (Some 7%nat) []) /\
    flushDataQueue Sample.alice R4 = (R4, []).
Proof.
  apply (offline_queue_delivered_in_order Sample.offline Sample.alice (mkMailbox None [])).
  - vm_compute. reflexivity.
  - reflexivity.
Defined.

(** The claim C1 as it is written fails when an envelope was already waiting:
    [alice] is offline with [m0] queued; after the enqueues of [m1], [m2],
    [m3] the registration of socket 7 delivers four events, [m0] first. *)
Lemma offline_queue_counterexample :
  exists R1 R2 R3 R4 out,
    own Sample.offline_with_mail !! Sample.alice = Some (mkMailbox None [Sample.m0]) /\
    sendDataTo Sample.alice "t1" (mkData 42 "one") Sample.offline_with_mail = Normal (R1, []) /\
    sendDataTo Sample.alice "t2" (mkData 3 "two") R1 = Normal (R2, []) /\
    sendDataTo Sample.alice "t3" (mkData 7 "three") R2 = Normal (R3, []) /\
    registerMailBox Sample.alice 7%nat R3 = (R4, out) /\
    out = [deliver 7%nat Sample.m0; deliver 7%nat Sample.m1;
           deliver 7%nat Sample.m2; deliver 7%nat Sample.m3] /\
    out <> [deliver 7%nat Sample.m1; deliver 7%nat Sample.m2; deliver 7%nat Sample.m3].
Proof.
  eexists _, _, _, _, _.
  split; [vm_compute; reflexivity|].
  split; [vm_compute; reflexivity|].
  split; [vm_compute; reflexivity|].
  split; [vm_compute; reflexivity|].
  split; [vm_compute; reflexivity|].
  split; [reflexivity|discriminate].
Qed.

(** ** One live connection per mailbox *)

Lemma mailbox_get (R : Registry) (k : string) (mb : Mailbox) :
  mailbox R k = Some mb -> exists r, get R k = VMailbox r mb.
Proof.
  unfold mailbox. destruct (get R k) as [|r mb'|]; [done| |done].
  intros [= ->]. by exists r.
Qed.

(** C4: a mailbox holds at most one socket, and whatever a flush emits goes
    to the socket bound in the mailbox it flushes.  When an identity is
    registered through [c1] and later, whatever registry operations come in
    between, through [c2], then [c2] is the socket bound, with an empty
    queue, and every envelope enqueued afterwards is delivered to [c2] and to
    no other socket. *)
Theorem second_registration_wins
    (R : Registry) (I : string) (c1 c2 : Socket) (between : list RegistryOp) :
  let R1 := (registerMailBox I c1 R).1 in
  let R2 := (registerMailBox I c2 (foldl apply_op R1 between)).1 in
  (forall (R' : Registry) (k : string) (a : Action),
      a ∈ (flushDataQueue k R').2 ->
      exists mb s e, mailbox R' k = Some mb /\ socket mb = Some s /\ a = deliver s e) /\
  mailbox R2 I = Some (mkMailbox (Some c2) []) /\
  flushDataQueue I R2 = (R2, []) /\
  (forall (sessionId : string) (data : Data),
      sendDataTo I sessionId data R2 = Normal (R2, [Emit c2 (EvData sessionId data)])).
Proof.
  intros R1 R2.
  assert (Hmb : mailbox R2 I = Some (mkMailbox (Some c2) []))
    by apply registerMailBox_binds.
  destruct (mailbox_get _ _ _ Hmb) as [r Hget].
  split; [|split; [done|split]].
  - intros R' k a. rewrite flushDataQueue_emits.
    destruct (mailbox R' k) as [mb|]; [|by intros ?%elem_of_nil].
    destruct (socket mb) as [s|] eqn:Hs; [|by intros ?%elem_of_nil].
    intros (e & -> & _)%list_elem_of_fmap. by exists mb, s, e.
  - rewrite (flushDataQueue_bound _ _ _ _ _ Hget eq_refl).
    by rewrite (store_id _ _ _ _ Hget).
  - intros sessionId data.
    rewrite (sendDataTo_bound _ _ _ _ _ _ _ Hget eq_refl).
    by rewrite (store_id _ _ _ _ Hget).
Qed.

(** For instance: socket 1, then socket 2 register [alice]; an envelope sent
    to her afterwards goes to socket 2 only. *)
Example second_registration_example :
  sendDataTo Sample.alice "t1" (mkData 42 "one")
    (registerMailBox Sample.alice 2%nat
       (registerMailBox Sample.alice 1%nat empty_registry).1).1
  = Normal ((registerMailBox Sample.alice 2%nat
               (registerMailBox Sample.alice 1%nat empty_registry).1).1,
            [Emit 2%nat (EvData "t1" (mkData 42 "one"))]).
Proof. vm_compute. reflexivity. Qed.

(** ** sendDataTo for a name without a row *)

(** [REGISTERED_USERS[keyId]] is [undefined] for a name that has no row and
    is not the name of a property the object inherits: [?.] skips the push,
    the flush finds no recipient, and [sendDataTo] has done nothing. *)
Lemma sendDataTo_no_row (R : Registry) (keyId sessionId : string) (data : Data) :
  own R !! keyId = None ->
  proto R = None ->
  keyId ∉ object_prototype_methods ->
  keyId <> "__proto__"%string ->
  sendDataTo keyId sessionId data R = Normal (R, []) /\ flushDataQueue keyId R = (R, []).
Proof.
  intros Hown Hproto Hmeth Hk.
  assert (Hget : get R keyId = VUndefined).
  { unfold get, object_prototype_get. rewrite Hown, Hproto.
    by rewrite !bool_decide_eq_false_2. }
  unfold sendDataTo, flushDataQueue. by rewrite Hget.
Qed.

(** For the name of a property that [REGISTERED_USERS] inherits the read is
    not [undefined], and [sendDataTo] on its own would throw: the registry
    is empty, [constructor] has no row.  The ['data'] listener, the only
    caller, asks [Object.hasOwn] first. *)
Lemma sendDataTo_inherited_name_throws :
  own empty_registry !! "constructor"%string = None /\
  hasOwn empty_registry "constructor" = false /\
  sendDataTo "constructor" "t1" (mkData 42 "one") empty_registry = Throw.
Proof. split; [|split]; vm_compute; reflexivity. Qed.

(** ** No envelope waits in a mailbox that has a live connection *)

Lemma quiescent_empty : quiescent empty_registry.
Proof.
  intros mb [[k Hk]|Hp]; simpl in *; [|done].
  by rewrite lookup_empty in Hk.
Qed.

Lemma quiescent_store (R : Registry) (r : Ref) (mb : Mailbox) :
  quiescent R -> (is_Some (socket mb) -> queue mb = []) -> quiescent (store r mb R).
Proof.
  intros HR Hmb mb' Hmb'. destruct r as [k|]; destruct Hmb' as [[k' Hk']|Hp]; simpl in *.
  - destruct (decide (k = k')) as [->|Hne].
    + rewrite lookup_insert_eq in Hk'. by simplify_eq.
    + rewrite lookup_insert_ne in Hk' by done. apply HR. left. by exists k'.
  - apply HR. by right.
  - apply HR. left. by exists k'.
  - by simplify_eq.
Qed.

Lemma quiescent_assign (R : Registry) (k : string) (mb : Mailbox) :
  quiescent R -> (is_Some (socket mb) -> queue mb = []) -> quiescent (assign k mb R).
Proof.
  intros HR Hmb. unfold assign.
  destruct (bool_decide (k = "__proto__"%string) && negb (hasOwn R k)).
  - by apply (quiescent_store R ProtoObject).
  - by apply (quiescent_store R (OwnRow k)).
Qed.

Lemma quiescent_registerMailBox (R : Registry) (k : string) (s : Socket) :
  quiescent R -> quiescent (registerMailBox k s R).1.
Proof.
  intros HR. destruct (own R !! k) as [mb|] eqn:Hown.
  - rewrite (registerMailBox_existing _ _ _ _ Hown). by apply quiescent_store.
  - unfold registerMailBox. rewrite (proj2 (hasOwn_false R k) Hown).
    by apply quiescent_assign.
Qed.

Lemma quiescent_sendDataTo (R R' : Registry) (k sessionId : string) (data : Data)
    (out : list Action) :
  quiescent R -> sendDataTo k sessionId data R = Normal (R', out) -> quiescent R'.
Proof.
  intros HR. destruct (get R k) as [|r mb|] eqn:Hget.
  - unfold sendDataTo, flushDataQueue. rewrite Hget. by intros [= <- _].
  - destruct (socket mb) as [s|] eqn:Hs.
    + rewrite (sendDataTo_bound _ _ _ _ _ _ _ Hget Hs). intros [= <- _].
      by apply quiescent_store.
    + rewrite (sendDataTo_unbound _ _ _ _ _ _ Hget Hs). intros [= <- _].
      apply quiescent_store; [done|]. by intros [? [=]].
  - unfold sendDataTo. by rewrite Hget.
Qed.

Lemma quiescent_unbind (R : Registry) (k : string) :
  quiescent R -> quiescent (unbind k R).
Proof.
  intros HR. unfold unbind. destruct (get R k) as [|r mb|]; [done| |done].
  apply quiescent_store; [done|]. by intros [? [=]].
Qed.

Lemma quiescent_apply_op (R : Registry) (op : RegistryOp) :
  quiescent R -> quiescent (apply_op R op).
Proof.
  intros HR. destruct op as [k s|k sessionId data|k]; simpl.
  - by apply quiescent_registerMailBox.
  - destruct (sendDataTo k sessionId data R) as [[R' out]|] eqn:Hsend; [|done].
    by eapply quiescent_sendDataTo.
  - by apply quiescent_unbind.
Qed.

(** C9: after every operation of any sequence of registrations, enqueues and
    unbinds, started from the empty registry, a mailbox that has a live
    connection bound has an empty queue. *)
Theorem bound_mailboxes_have_empty_queues (ops : list RegistryOp) :
  forall (k : string) (mb : Mailbox),
    mailbox (foldl apply_op empty_registry ops) k = Some mb ->
    is_Some (socket mb) ->
    queue mb = [].
Proof.
  assert (Hq : quiescent (foldl apply_op empty_registry ops)).
  { generalize quiescent_empty. generalize empty_registry.
    induction ops as [|op ops IH]; intros R HR; simpl; [done|].
    by apply IH, quiescent_apply_op. }
  intros k mb Hmb. apply Hq.
  destruct (mailbox_get _ _ _ Hmb) as [r Hget].
  destruct (get_mailbox_inv _ _ _ _ Hget) as [[_ Hown]|(_ & _ & _ & Hp)].
  - left. by exists k.
  - by right.
Qed.

(** ** The text of an identity *)

(** Induction over a list three elements at a time, as [Base64.encode]
    recurses. *)
Lemma list_ind_by_three {A : Type} (P : list A -> Prop) :
  P [] -> (forall a, P [a]) -> (forall a b, P [a; b]) ->
  (forall a b c l, P l -> P (a :: b :: c :: l)) ->
  forall l, P l.
Proof.
  intros H0 H1 H2 H3 l.
  cut (P l /\ (forall a, P (a :: l)) /\ (forall a b, P (a :: b :: l))); [tauto|].
  induction l as [|x l (IH0 & IH1 & IH2)]; [done|].
  split; [apply IH1|]. split; [intros a; apply IH2|]. intros a b. by apply H3.
Qed.

(** Base64 text comes in groups of four characters. *)
Lemma base64_length (buf : list Byte.byte) :
  exists n : nat, String.length (toString_base64 buf) = (4 * n)%nat.
Proof.
  unfold toString_base64.
  induction buf as [|a|a b|a b c l [n IH]] using list_ind_by_three.
  - by exists 0%nat.
  - by exists 1%nat.
  - by exists 1%nat.
  - exists (S n). cbn [Base64.encode String.length]. rewrite IH. lia.
Qed.

(** Neither ['ANONYMOUS'] nor [__proto__] (nine characters each) is the
    base64 text of a buffer. *)
Lemma base64_not_anonymous (buf : list Byte.byte) :
  toString_base64 buf <> "ANONYMOUS"%string.
Proof.
  intros H. destruct (base64_length buf) as [n Hn]. rewrite H in Hn.
  simpl in Hn. lia.
Qed.

Lemma base64_not_proto (buf : list Byte.byte) :
  toString_base64 buf <> "__proto__"%string.
Proof.
  intros H. destruct (base64_length buf) as [n Hn]. rewrite H in Hn.
  simpl in Hn. lia.
Qed.

(** ** The listeners of a connected socket *)

Lemma step_challenge (st : Server) (sock : Socket) (h : Handshake) (cr : Crypto)
    (bytes encrypted : list Byte.byte) :
  sockets st !! sock = None -> truthy (key h) = true -> recovered h = false ->
  spki cr = Some bytes -> symKey cr = true -> encryptedChallenge cr = Some encrypted ->
  step st sock (Connection h cr)
  = (set_conn st sock (mkConn (toString_base64 bytes) (Some (challenge cr)) true),
     [Emit sock (EvChallenge (toString_base64 (iv cr)) (toString_base64 encrypted))]).
Proof.
  intros Hnew Hkey Hrec Hspki Hsym Henc. unfold step. rewrite Hnew.
  unfold on_connection. by rewrite Hkey, Hspki, Hrec, Hsym, Henc.
Qed.

Lemma step_data (st : Server) (sock : Socket) (c : Conn)
    (peerId sessionId : string) (data : Data) (ack : bool) :
  sockets st !! sock = Some c -> connected c = true ->
  step st sock (DataEvent peerId sessionId data ack) = on_data sock peerId sessionId data st.
Proof. intros Hc Hconn. unfold step. by rewrite Hc, Hconn. Qed.

Lemma step_register (st : Server) (sock : Socket) (c : Conn) (buf : list Byte.byte)
    (solved : string) (ack : bool) :
  sockets st !! sock = Some c -> connected c = true -> challengeBuf c = Some buf ->
  step st sock (RegisterEvent solved ack) = on_register sock c buf solved st.
Proof. intros Hc Hconn Hbuf. unfold step. by rewrite Hc, Hconn, Hbuf. Qed.

Lemma step_disconnect (st : Server) (sock : Socket) (c : Conn) :
  sockets st !! sock = Some c -> connected c = true ->
  step st sock DisconnectEvent = (on_disconnect sock c st, []).
Proof. intros Hc Hconn. unfold step. by rewrite Hc, Hconn. Qed.


Lemma registerMailBox_out (R : Registry) (k : string) (s : Socket) (a : Action) :
  a ∈ (registerMailBox k s R).2 -> exists e, a = deliver s e.
Proof.
  destruct (own R !! k) as [mb|] eqn:Hown.
  - rewrite (registerMailBox_existing _ _ _ _ Hown). simpl.
    intros (e & -> & _)%list_elem_of_fmap. by exists e.
  - unfold registerMailBox. rewrite (proj2 (hasOwn_false R k) Hown). simpl.
    by intros ?%elem_of_nil.
Qed.

(** After the write of the ['disconnect'] listener the identity's mailbox,
    if it has one, has no live connection. *)
Lemma unbind_unbound (R : Registry) (k : string) (mb : Mailbox) :
  mailbox (unbind k R) k = Some mb -> socket mb = None.
Proof.
  unfold unbind. destruct (get R k) as [|r mb0|] eqn:Hget.
  - unfold mailbox. by rewrite Hget.
  - unfold mailbox. rewrite (get_store _ _ _ _ _ Hget). by intros [= <-].
  - unfold mailbox. by rewrite Hget.
Qed.

(** ** The challenge and its solution *)

(** On a connected socket whose ['register'] listener holds the nonce
    [buf], the identity's mailbox is bound to this socket after the event
    exactly when the submitted text equals the base64 text of [buf].  On
    equality the server does what [registerMailBox] does, the socket is not
    closed and stays as it was.  On a mismatch the only action is the forced
    close of the socket, which is no longer connected afterwards. *)
Lemma register_event_spec
    (st : Server) (sock : Socket) (c : Conn) (buf : list Byte.byte)
    (solved : string) (ack : bool) :
  sockets st !! sock = Some c ->
  connected c = true ->
  challengeBuf c = Some buf ->
  let st' := (step st sock (RegisterEvent solved ack)).1 in
  let out := (step st sock (RegisterEvent solved ack)).2 in
  ((exists mb, mailbox (REGISTERED_USERS st') (clientKeyId c) = Some mb
               /\ socket mb = Some sock)
   <-> solved = toString_base64 buf) /\
  (solved = toString_base64 buf ->
     REGISTERED_USERS st' = (registerMailBox (clientKeyId c) sock (REGISTERED_USERS st)).1 /\
     out = (registerMailBox (clientKeyId c) sock (REGISTERED_USERS st)).2 /\
     mailbox (REGISTERED_USERS st') (clientKeyId c) = Some (mkMailbox (Some sock) []) /\
     (Close sock ∉ out) /\
     sockets st' !! sock = Some c) /\
  (solved <> toString_base64 buf ->
     out = [Close sock] /\
     sockets st' !! sock = Some (mkConn (clientKeyId c) (Some buf) false)).
Proof.
  intros Hc Hconn Hbuf st' out. subst st' out.
  rewrite (step_register _ _ _ _ _ _ Hc Hconn Hbuf). unfold on_register.
  destruct (String.eqb_spec solved (toString_base64 buf)) as [Heq|Hne].
  - destruct (registerMailBox (clientKeyId c) sock (REGISTERED_USERS st))
      as [R o] eqn:Hreg. simpl.
    assert (Hb : mailbox R (clientKeyId c) = Some (mkMailbox (Some sock) [])).
    { replace R with (registerMailBox (clientKeyId c) sock (REGISTERED_USERS st)).1
        by (by rewrite Hreg).
      apply registerMailBox_binds. }
    split; [split; [done|by eauto]|]. split; [|done].
    intros _. do 3 (split; [done|]). split; [|done].
    intros Hin. destruct (registerMailBox_out (REGISTERED_USERS st) (clientKeyId c) sock (Close sock))
      as [e He]; [by rewrite Hreg|done].
  - cbn [fst snd]. split; [|split; [done|]].
    + split; [|done]. intros (mb & Hmb & Hs).
      apply unbind_unbound in Hmb. congruence.
    + intros _. split; [done|].
      unfold on_disconnect, set_conn. cbn [sockets]. rewrite Hbuf.
      apply lookup_insert_eq.
Qed.

(** ** A recipient without a mailbox *)

(** C3: a ['data'] event of a connected socket that names a recipient
    without a row is answered by exactly one event, an error with code 404
    whose message carries the short form of the recipient; the server state
    is what it was, so no mailbox was created, the registry is unchanged and
    the sender's socket is connected as before. *)
Theorem unknown_recipient_gets_404
    (st : Server) (sock : Socket) (c : Conn)
    (peerId sessionId : string) (data : Data) (ack : bool) :
  sockets st !! sock = Some c ->
  connected c = true ->
  hasOwn (REGISTERED_USERS st) peerId = false ->
  step st sock (DataEvent peerId sessionId data ack) =
    (st, [Emit sock (EvError 404 ("Peer " +:+ last4 peerId +:+ " not found"))]).
Proof.
  intros Hc Hconn Hown. rewrite (step_data _ _ _ _ _ _ _ Hc Hconn).
  unfold on_data. by rewrite Hown.
Qed.

Lemma unknown_recipient_gets_404_witness :
  sockets Sample.registered !! 1%nat = Some Sample.alice_conn /\
  hasOwn (REGISTERED_USERS Sample.registered) "ghost" = false /\
  step Sample.registered 1%nat (DataEvent "ghost" "t1" (mkData 42 "one") false) =
    (Sample.registered, [Emit 1%nat (EvError 404 "Peer gho not found")]).
Proof.
  assert (Hc : sockets Sample.registered !! 1%nat = Some Sample.alice_conn)
    by (vm_compute; reflexivity).
  assert (Hown : hasOwn (REGISTERED_USERS Sample.registered) "ghost" = false)
    by (vm_compute; reflexivity).
  split; [exact Hc|]. split; [exact Hown|].
  exact (unknown_recipient_gets_404 Sample.registered 1%nat Sample.alice_conn
           "ghost" "t1" (mkData 42 "one") false Hc eq_refl Hown).
Defined.

(** ** What one registry operation changes *)

(** An operation leaves the registry as it was, or writes one mailbox object
    that a read reached, or (the first registration of an identity) assigns a
    new mailbox. *)
Lemma apply_op_shape (R : Registry) (op : RegistryOp) :
  apply_op R op = R \/
  (exists k r mb0 mb,
      get R k = VMailbox r mb0 /\ apply_op R op = store r mb R /\
      (socket mb = socket mb0 \/ socket mb = None \/
       exists s, op = OpRegister k s /\ socket mb = Some s)) \/
  (exists k s,
      op = OpRegister k s /\ own R !! k = None /\
      apply_op R op = assign k (mkMailbox (Some s) []) R).
Proof.
  destruct op as [k s|k sessionId data|k]; simpl.
  - destruct (own R !! k) as [mb0|] eqn:Hown.
    + right; left. exists k, (OwnRow k), mb0, (mkMailbox (Some s) []).
      rewrite (registerMailBox_existing _ _ _ _ Hown).
      split; [by apply get_own|]. split; [done|]. right; right. by exists s.
    + right; right. exists k, s. unfold registerMailBox.
      by rewrite (proj2 (hasOwn_false R k) Hown).
  - destruct (get R k) as [|r mb0|] eqn:Hget.
    + left. unfold sendDataTo, flushDataQueue. by rewrite Hget.
    + right; left. destruct (socket mb0) as [s|] eqn:Hs.
      * rewrite (sendDataTo_bound _ _ _ _ _ _ _ Hget Hs).
        exists k, r, mb0, (mkMailbox (Some s) []). simpl. rewrite Hs. by auto.
      * rewrite (sendDataTo_unbound _ _ _ _ _ _ Hget Hs).
        exists k, r, mb0, (mkMailbox None (queue mb0 ++ [(sessionId, data)])).
        simpl. rewrite Hs. by auto.
    + left. unfold sendDataTo. by rewrite Hget.
  - unfold unbind. destruct (get R k) as [|r mb0|] eqn:Hget; [by left| |by left].
    right; left. exists k, r, mb0, (mkMailbox None (queue mb0)). by auto.
Qed.

Lemma store_own_is_Some (R : Registry) (k j : string) (r : Ref) (mb0 mb : Mailbox) :
  get R k = VMailbox r mb0 ->
  (is_Some (own (store r mb R) !! j) <-> is_Some (own R !! j)).
Proof.
  intros [[-> Hown]|(-> & _)]%get_mailbox_inv; simpl; [|done].
  destruct (decide (k = j)) as [->|Hne].
  - rewrite lookup_insert_eq, Hown. split; by eauto.
  - by rewrite lookup_insert_ne.
Qed.

Lemma store_proto_None (R : Registry) (k : string) (r : Ref) (mb0 mb : Mailbox) :
  get R k = VMailbox r mb0 -> proto R = None -> proto (store r mb R) = None.
Proof.
  intros [[-> Hown]|(-> & _ & _ & Hp)]%get_mailbox_inv Hnone; simpl; [done|].
  congruence.
Qed.

Lemma get_is_mailbox (R : Registry) (k : string) (r : Ref) (mb : Mailbox) :
  get R k = VMailbox r mb -> is_mailbox R mb.
Proof.
  intros [[_ Hown]|(_ & _ & _ & Hp)]%get_mailbox_inv; [left; by exists k|by right].
Qed.

Lemma is_mailbox_store (R : Registry) (r : Ref) (mb mb' : Mailbox) :
  is_mailbox (store r mb R) mb' -> mb' = mb \/ is_mailbox R mb'.
Proof.
  destruct r as [k|]; intros [[j Hj]|Hp]; simpl in *.
  - destruct (decide (k = j)) as [->|Hne].
    + rewrite lookup_insert_eq in Hj. left. congruence.
    + rewrite lookup_insert_ne in Hj by done. right; left. by exists j.
  - right. by right.
  - right; left. by exists j.
  - left. congruence.
Qed.

Lemma is_mailbox_assign (R : Registry) (k : string) (mb mb' : Mailbox) :
  is_mailbox (assign k mb R) mb' -> mb' = mb \/ is_mailbox R mb'.
Proof.
  unfold assign. destruct (bool_decide (k = "__proto__"%string) && negb (hasOwn R k)).
  - apply (is_mailbox_store R ProtoObject).
  - apply (is_mailbox_store R (OwnRow k)).
Qed.

(** No operation removes a row. *)
Lemma apply_op_keeps_rows (R : Registry) (op : RegistryOp) (j : string) :
  is_Some (own R !! j) -> is_Some (own (apply_op R op) !! j).
Proof.
  intros Hj.
  destruct (apply_op_shape R op)
    as [->|[(k & r & mb0 & mb & Hget & -> & _)|(k & s & _ & Hown & ->)]]; [done| |].
  - by apply (store_own_is_Some _ _ _ _ _ _ Hget).
  - unfold assign. destruct (bool_decide (k = "__proto__"%string) && negb (hasOwn R k));
      simpl; [done|].
    destruct (decide (k = j)) as [->|Hne].
    + rewrite lookup_insert_eq. by eauto.
    + by rewrite lookup_insert_ne.
Qed.

(** A row that exists after an operation existed before it, unless the
    operation registered its identity. *)
Lemma apply_op_new_row (R : Registry) (op : RegistryOp) (j : string) :
  is_Some (own (apply_op R op) !! j) ->
  is_Some (own R !! j) \/ exists s, op = OpRegister j s.
Proof.
  destruct (apply_op_shape R op)
    as [->|[(k & r & mb0 & mb & Hget & -> & _)|(k & s & -> & Hown & ->)]]; [by left| |].
  - intros Hj. left. by apply (store_own_is_Some _ _ _ _ _ _ Hget) in Hj.
  - unfold assign. destruct (bool_decide (k = "__proto__"%string) && negb (hasOwn R k));
      simpl; [by left|].
    destruct (decide (k = j)) as [->|Hne].
    + intros _. right. by exists s.
    + rewrite lookup_insert_ne by done. by left.
Qed.

(** The prototype stays [Object.prototype] unless [__proto__] is registered. *)
Lemma apply_op_proto (R : Registry) (op : RegistryOp) :
  proto R = None ->
  (forall s, op <> OpRegister "__proto__" s) ->
  proto (apply_op R op) = None.
Proof.
  intros Hp Hop.
  destruct (apply_op_shape R op)
    as [->|[(k & r & mb0 & mb & Hget & -> & _)|(k & s & -> & Hown & ->)]]; [done| |].
  - by apply (store_proto_None _ _ _ _ _ Hget).
  - unfold assign. case_bool_decide as Hk; simpl; [|done].
    subst k. by destruct (Hop s).
Qed.

(** A socket bound after an operation was bound before it, unless the
    operation registered it. *)
Lemma apply_op_bound (R : Registry) (op : RegistryOp) (mb : Mailbox) (s : Socket) :
  is_mailbox (apply_op R op) mb -> socket mb = Some s ->
  (exists mb0, is_mailbox R mb0 /\ socket mb0 = Some s) \/
  (exists k, op = OpRegister k s).
Proof.
  destruct (apply_op_shape R op)
    as [->|[(k & r & mb0 & mb1 & Hget & -> & Hsock)|(k & s1 & -> & Hown & ->)]].
  - intros Hmb Hs. left. by exists mb.
  - intros [->|Hmb]%is_mailbox_store Hs; [|left; by exists mb].
    destruct Hsock as [Hsame|[Hnone|(s1 & -> & Hs1)]].
    + left. exists mb0. split; [by eapply get_is_mailbox|congruence].
    + congruence.
    + right. exists k. congruence.
  - intros [->|Hmb]%is_mailbox_assign Hs; [|left; by exists mb].
    right. exists k. simpl in Hs. congruence.
Qed.

(** ** What one event changes *)

Lemma step_registry (st : Server) (s : Socket) (ev : ClientEvent) :
  REGISTERED_USERS (step st s ev).1 = REGISTERED_USERS st \/
  exists op,
    REGISTERED_USERS (step st s ev).1 = apply_op (REGISTERED_USERS st) op /\
    forall k s0, op = OpRegister k s0 ->
      s0 = s /\ exists c buf,
        sockets st !! s = Some c /\ clientKeyId c = k /\ challengeBuf c = Some buf.
Proof.
  assert (Hdata : forall peerId sessionId data,
             REGISTERED_USERS (on_data s peerId sessionId data st).1 = REGISTERED_USERS st \/
             REGISTERED_USERS (on_data s peerId sessionId data st).1
             = apply_op (REGISTERED_USERS st) (OpSend peerId sessionId data)).
  { intros peerId sessionId data. unfold on_data.
    destruct (hasOwn (REGISTERED_USERS st) peerId); [|by left]. right. simpl.
    by destruct (sendDataTo peerId sessionId data (REGISTERED_USERS st)) as [[R out]|]. }
  unfold step. destruct ev as [h cr|peerId sessionId data ack|solved ack|];
    destruct (sockets st !! s) as [c|] eqn:Hc; try (by left).
  - left. unfold on_connection.
    destruct (truthy (key h)), (spki cr), (recovered h), (symKey cr),
      (encryptedChallenge cr); done.
  - destruct (connected c); [|by left].
    destruct (Hdata peerId sessionId data) as [?|?]; [by left|right].
    by exists (OpSend peerId sessionId data).
  - destruct (halted st !! s) as [[|]|]; [|by left..].
    destruct (Hdata peerId sessionId data) as [?|?]; [by left|right].
    by exists (OpSend peerId sessionId data).
  - destruct (connected c); [|by left].
    destruct (challengeBuf c) as [buf|] eqn:Hbuf; [|by left].
    right. unfold on_register. destruct (String.eqb solved (toString_base64 buf)).
    + exists (OpRegister (clientKeyId c) s). split.
      * simpl. by destruct (registerMailBox (clientKeyId c) s (REGISTERED_USERS st)).
      * intros k s0 [= Hk Hs]. split; [done|]. by exists c, buf.
    + exists (OpUnbind (clientKeyId c)). by split.
  - destruct (connected c); [|by left].
    right. exists (OpUnbind (clientKeyId c)). by split.
  - left. by destruct (halted st !! s) as [[|]|].
Qed.

Lemma on_data_sockets (st : Server) (s : Socket) (peerId sessionId : string) (data : Data) :
  sockets (on_data s peerId sessionId data st).1 = sockets st.
Proof.
  unfold on_data. destruct (hasOwn (REGISTERED_USERS st) peerId); [|done].
  by destruct (sendDataTo peerId sessionId data (REGISTERED_USERS st)) as [[R out]|].
Qed.

(** An event changes at most the entry of its own socket: a new socket is
    entered, or a known one is marked as no longer connected. *)
Lemma step_sockets_shape (st : Server) (s : Socket) (ev : ClientEvent) :
  sockets (step st s ev).1 = sockets st \/
  exists c', sockets (step st s ev).1 = <[s := c']> (sockets st) /\
    match sockets st !! s with
    | Some c =>
        clientKeyId c' = clientKeyId c /\ challengeBuf c' = challengeBuf c /\
        connected c' = false
    | None => is_Some (challengeBuf c') -> exists bytes, clientKeyId c' = toString_base64 bytes
    end.
Proof.
  unfold step. destruct ev as [h cr|peerId sessionId data ack|solved ack|];
    destruct (sockets st !! s) as [c|] eqn:Hc; try (by left).
  - unfold on_connection.
    destruct (truthy (key h)), (spki cr) as [bytes|], (recovered h), (symKey cr),
      (encryptedChallenge cr) as [encrypted|]; simpl;
      try (by left); right; eexists; (split; [done|]); simpl;
      try (by intros [? [=]]); by eauto.
  - left. destruct (connected c); [|done]. apply on_data_sockets.
  - left. destruct (halted st !! s) as [[|]|]; [|done..]. apply on_data_sockets.
  - destruct (connected c); [|by left].
    destruct (challengeBuf c) as [buf|] eqn:Hbuf; [|by left].
    unfold on_register. destruct (String.eqb solved (toString_base64 buf)).
    + left. by destruct (registerMailBox (clientKeyId c) s (REGISTERED_USERS st)).
    + right. eexists. split; [done|]. simpl. by rewrite Hbuf.
  - destruct (connected c); [|by left]. right. by eexists.
  - left. by destruct (halted st !! s) as [[|]|].
Qed.

(** A socket keeps its identity and its ['register'] listener. *)
Lemma step_sockets_kept (st : Server) (s : Socket) (ev : ClientEvent) (s0 : Socket) (c0 : Conn) :
  sockets st !! s0 = Some c0 ->
  exists c1, sockets (step st s ev).1 !! s0 = Some c1 /\
             clientKeyId c1 = clientKeyId c0 /\ challengeBuf c1 = challengeBuf c0.
Proof.
  intros H0. destruct (step_sockets_shape st s ev) as [->|(c' & -> & Hc')]; [by eauto|].
  destruct (decide (s = s0)) as [->|Hne].
  - rewrite lookup_insert_eq. rewrite H0 in Hc'. destruct Hc' as (Hk & Hb & _). by eauto.
  - rewrite lookup_insert_ne by done. by eauto.
Qed.


(** A socket the server knows after an event was known before it, with the
    same identity and listener, or is the one that just connected. *)
Lemma step_sockets_new (st : Server) (s : Socket) (ev : ClientEvent) (s0 : Socket) (c1 : Conn) :
  sockets (step st s ev).1 !! s0 = Some c1 ->
  (exists c0, sockets st !! s0 = Some c0 /\
              clientKeyId c1 = clientKeyId c0 /\ challengeBuf c1 = challengeBuf c0) \/
  (s0 = s /\ sockets st !! s = None /\
   (is_Some (challengeBuf c1) -> exists bytes, clientKeyId c1 = toString_base64 bytes)).
Proof.
  destruct (step_sockets_shape st s ev) as [->|(c' & -> & Hc')]; [by eauto|].
  destruct (decide (s = s0)) as [->|Hne].
  - rewrite lookup_insert_eq. intros [= <-].
    destruct (sockets st !! s0) as [c0|]; [|by right].
    left. destruct Hc' as (Hk & Hb & _). by eauto.
  - rewrite lookup_insert_ne by done. by eauto.
Qed.

(** ** What holds between two events *)

Lemma consistent_initial : consistent initial.
Proof.
  split; simpl.
  - apply quiescent_empty.
  - done.
  - intros k [mb Hk]. by rewrite lookup_empty in Hk.
  - intros s c Hc. by rewrite lookup_empty in Hc.
  - intros s (mb & [[k Hk]|Hp] & _); simpl in *; [|done].
    by rewrite lookup_empty in Hk.
Qed.

Lemma consistent_step (st : Server) (s : Socket) (ev : ClientEvent) :
  consistent st -> consistent (step st s ev).1.
Proof.
  intros [Hq Hp Hrows Hlis Hbound].
  assert (Hlis' : forall s0 c1, sockets (step st s ev).1 !! s0 = Some c1 ->
            is_Some (challengeBuf c1) -> exists bytes, clientKeyId c1 = toString_base64 bytes).
  { intros s0 c1 [(c0 & H0 & Hk & Hb)|(_ & _ & Hnew)]%step_sockets_new Hsome; [|by auto].
    rewrite Hk. apply (Hlis s0 c0 H0). by rewrite <- Hb. }
  assert (Hkept : forall s0, (exists c, sockets st !! s0 = Some c /\ is_Some (challengeBuf c)) ->
            exists c, sockets (step st s ev).1 !! s0 = Some c /\ is_Some (challengeBuf c)).
  { intros s0 (c0 & H0 & Hsome).
    destruct (step_sockets_kept st s ev s0 c0 H0) as (c1 & H1 & _ & Hb).
    exists c1. by rewrite Hb. }
  destruct (step_registry st s ev) as [HR|(op & HR & Hop)]; split; try done;
    rewrite HR.
  - done.
  - done.
  - done.
  - intros s0 Hs0. by apply Hkept, Hbound.
  - by apply quiescent_apply_op.
  - apply apply_op_proto; [done|]. intros s0 Heq.
    destruct (Hop _ _ Heq) as (_ & c & buf & Hc & Hk & Hbuf).
    destruct (Hlis s c Hc) as [bytes Hbytes]; [by rewrite Hbuf|].
    rewrite Hk in Hbytes. symmetry in Hbytes. by apply base64_not_proto in Hbytes.
  - intros k [Hk|(s0 & Heq)]%apply_op_new_row; [by apply Hrows|].
    destruct (Hop _ _ Heq) as (_ & c & buf & Hc & Hk & Hbuf).
    rewrite <- Hk. apply (Hlis s c Hc). by rewrite Hbuf.
  - intros s0 (mb & Hmb & Hs0). apply Hkept.
    destruct (apply_op_bound _ _ _ _ Hmb Hs0) as [Hold|(k & Heq)].
    + by apply Hbound.
    + destruct (Hop _ _ Heq) as (-> & c & buf & Hc & Hk & Hbuf).
      exists c. by rewrite Hbuf.
Qed.

Lemma run_cons (st : Server) (s : Socket) (ev : ClientEvent) (evs : list (Socket * ClientEvent)) :
  run st ((s, ev) :: evs) =
    ((run (step st s ev).1 evs).1, (step st s ev).2 ++ (run (step st s ev).1 evs).2).
Proof.
  simpl. destruct (step st s ev) as [st1 out1]. simpl.
  by destruct (run st1 evs) as [st2 out2].
Qed.

Lemma consistent_run (st : Server) (evs : list (Socket * ClientEvent)) :
  consistent st -> consistent (run st evs).1.
Proof.
  revert st. induction evs as [|[s ev] evs IH]; intros st Hst; [done|].
  rewrite run_cons. simpl. by apply IH, consistent_step.
Qed.

(** No event removes a row of the registry. *)
Lemma step_keeps_rows (st : Server) (s : Socket) (ev : ClientEvent) (k : string) :
  is_Some (own (REGISTERED_USERS st) !! k) ->
  is_Some (own (REGISTERED_USERS (step st s ev).1) !! k).
Proof.
  intros Hk. destruct (step_registry st s ev) as [->|(op & -> & _)]; [done|].
  by apply apply_op_keeps_rows.
Qed.

Lemma run_keeps_rows (st : Server) (evs : list (Socket * ClientEvent)) (k : string) :
  is_Some (own (REGISTERED_USERS st) !! k) ->
  is_Some (own (REGISTERED_USERS (run st evs).1) !! k).
Proof.
  revert st. induction evs as [|[s ev] evs IH]; intros st Hk; [done|].
  rewrite run_cons. simpl. by apply IH, step_keeps_rows.
Qed.

(** ** What one event makes the server do *)

Lemma sendDataTo_out (R R' : Registry) (k sessionId : string) (data : Data)
    (out : list Action) (a : Action) :
  sendDataTo k sessionId data R = Normal (R', out) -> a ∈ out ->
  exists s e, a = deliver s e.
Proof.
  destruct (get R k) as [|r mb|] eqn:Hget.
  - unfold sendDataTo, flushDataQueue. rewrite Hget. intros [= _ <-].
    by intros ?%elem_of_nil.
  - destruct (socket mb) as [s|] eqn:Hs.
    + rewrite (sendDataTo_bound _ _ _ _ _ _ _ Hget Hs). intros [= _ <-].
      intros (e & -> & _)%list_elem_of_fmap. by exists s, e.
    + rewrite (sendDataTo_unbound _ _ _ _ _ _ Hget Hs). intros [= _ <-].
      by intros ?%elem_of_nil.
  - unfold sendDataTo. by rewrite Hget.
Qed.

Lemma on_data_out (st : Server) (s : Socket) (peerId sessionId : string) (data : Data)
    (a : Action) :
  a ∈ (on_data s peerId sessionId data st).2 ->
  (exists s' e, a = deliver s' e) \/ a = Uncaught s \/ (exists m, a = Emit s (EvError 404 m)).
Proof.
  unfold on_data. destruct (hasOwn (REGISTERED_USERS st) peerId); simpl.
  - destruct (sendDataTo peerId sessionId data (REGISTERED_USERS st))
      as [[R out]|] eqn:Hsend; simpl.
    + intros Ha. left. by eapply sendDataTo_out.
    + intros ->%list_elem_of_singleton. by auto.
  - intros ->%list_elem_of_singleton. by eauto 10.
Qed.

(** The actions of an event: deliveries of envelopes, or, for the socket of
    the event, the forced close, the refusal of the connection, an exception
    that is not caught, a 404 error, or (when the socket is new) the
    challenge. *)
Lemma step_out (st : Server) (s : Socket) (ev : ClientEvent) (a : Action) :
  a ∈ (step st s ev).2 ->
  (exists s' e, a = deliver s' e) \/ a = Close s \/ a = Reject s \/ a = Uncaught s \/
  (exists m, a = Emit s (EvError 404 m)) \/
  (exists i ch, a = Emit s (EvChallenge i ch) /\ sockets st !! s = None).
Proof.
  unfold step. destruct ev as [h cr|peerId sessionId data ack|solved ack|];
    destruct (sockets st !! s) as [c|] eqn:Hc; simpl; try (by intros ?%elem_of_nil).
  - unfold on_connection.
    destruct (truthy (key h)), (spki cr) as [bytes|], (recovered h), (symKey cr),
      (encryptedChallenge cr) as [encrypted|]; simpl;
      try (by intros ?%elem_of_nil); intros ->%list_elem_of_singleton; by eauto 10.
  - destruct (connected c); [|by intros ?%elem_of_nil].
    intros [?|[?|?]]%on_data_out; by eauto 10.
  - destruct (halted st !! s) as [[|]|]; [|by intros ?%elem_of_nil..].
    intros [?|[?|?]]%on_data_out; by eauto 10.
  - destruct (connected c); [|by intros ?%elem_of_nil].
    destruct (challengeBuf c) as [buf|]; [|by intros ?%elem_of_nil].
    unfold on_register. destruct (String.eqb solved (toString_base64 buf)).
    + destruct (registerMailBox (clientKeyId c) s (REGISTERED_USERS st))
        as [R out] eqn:Hreg. simpl. intros Ha. left. exists s.
      apply (registerMailBox_out (REGISTERED_USERS st) (clientKeyId c)). by rewrite Hreg.
    + simpl. intros ->%list_elem_of_singleton. by auto.
  - destruct (connected c); by intros ?%elem_of_nil.
  - destruct (halted st !! s) as [[|]|]; by intros ?%elem_of_nil.
Qed.

(** No listener calls an acknowledgement callback. *)
Lemma step_never_acknowledges (st : Server) (s : Socket) (ev : ClientEvent) (s' : Socket) :
  Ack s' ∉ (step st s ev).2.
Proof.
  intros [(? & ? & [=])|[[=]|[[=]|[[=]|[(? & [=])|(? & ? & [=] & _)]]]]]%step_out.
Qed.

(** A socket the server knows is never sent a challenge again. *)
Lemma step_no_challenge (st : Server) (s : Socket) (ev : ClientEvent)
    (sock : Socket) (c : Conn) (i ch : string) :
  sockets st !! sock = Some c -> Emit sock (EvChallenge i ch) ∉ (step st s ev).2.
Proof.
  intros Hc [(? & ? & [=])|[[=]|[[=]|[[=]|[(? & [=])|(? & ? & [= <- _ _] & Hnone)]]]]]%step_out.
  congruence.
Qed.

Lemma run_sockets_kept (st : Server) (evs : list (Socket * ClientEvent)) (s0 : Socket) (c0 : Conn) :
  sockets st !! s0 = Some c0 ->
  exists c1, sockets (run st evs).1 !! s0 = Some c1 /\
             clientKeyId c1 = clientKeyId c0 /\ challengeBuf c1 = challengeBuf c0.
Proof.
  revert st c0. induction evs as [|[s ev] evs IH]; intros st c0 H0; [by eauto|].
  rewrite run_cons. simpl.
  destruct (step_sockets_kept st s ev s0 c0 H0) as (c1 & H1 & Hk & Hb).
  destruct (IH _ _ H1) as (c2 & H2 & Hk2 & Hb2).
  exists c2. split; [done|]. split; congruence.
Qed.


Lemma run_no_challenge (st : Server) (evs : list (Socket * ClientEvent))
    (sock : Socket) (c : Conn) (i ch : string) :
  sockets st !! sock = Some c -> Emit sock (EvChallenge i ch) ∉ (run st evs).2.
Proof.
  revert st c. induction evs as [|[s ev] evs IH]; intros st c Hc.
  - by intros ?%elem_of_nil.
  - rewrite run_cons. simpl. intros [Hin|Hin]%elem_of_app.
    + by apply (step_no_challenge st s ev sock c i ch).
    + destruct (step_sockets_kept st s ev sock c Hc) as (c1 & H1 & _).
      by apply (IH _ _ H1).
Qed.

(** ** sendDataTo for an identity without a row *)

(** Four characters for three bytes. *)
Lemma base64_text_length (buf : list Byte.byte) :
  (4 * List.length buf <= 3 * String.length (toString_base64 buf))%nat.
Proof.
  unfold toString_base64.
  induction buf as [|a|a b|a b c l IH] using list_ind_by_three; simpl in *; lia.
Qed.

(** No property that [REGISTERED_USERS] inherits has a name of more than
    twenty characters. *)
Lemma inherited_names_are_short (keyId : string) :
  keyId ∈ object_prototype_methods \/ keyId = "__proto__"%string ->
  (String.length keyId <= 20)%nat.
Proof.
  intros [Hin| ->]; [|simpl; lia]. unfold object_prototype_methods in Hin.
  repeat (apply elem_of_cons in Hin as [->|Hin]; [simpl; lia|]).
  by apply elem_of_nil in Hin.
Qed.

(** C10: an identity is the base64 text of an exported key; that of a P-256
    key has 91 bytes, and sixteen are enough here.  In every state the relay
    reaches, for every identity that has no row, [sendDataTo] completes
    without an exception, emits nothing and leaves the registry, rows and
    prototype, as it was: no mailbox is created.  So does the flush it ends
    with. *)
Theorem sendDataTo_without_row
    (history : list (Socket * ClientEvent)) (bytes : list Byte.byte)
    (sessionId : string) (data : Data) :
  let R := REGISTERED_USERS (run initial history).1 in
  let keyId := toString_base64 bytes in
  (16 <= List.length bytes)%nat ->
  own R !! keyId = None ->
  sendDataTo keyId sessionId data R = Normal (R, []) /\
  flushDataQueue keyId R = (R, []).
Proof.
  intros R keyId Hlen Hown.
  assert (Hlong : (20 < String.length keyId)%nat).
  { pose proof (base64_text_length bytes). unfold keyId. lia. }
  apply sendDataTo_no_row; [done| | |].
  - apply consistent_proto, consistent_run, consistent_initial.
  - intros Hin. pose proof (inherited_names_are_short keyId (or_introl Hin)). lia.
  - intros Heq. pose proof (inherited_names_are_short keyId (or_intror Heq)). lia.
Qed.

Lemma sendDataTo_without_row_witness :
  own (REGISTERED_USERS (run initial Sample.registration).1)
    !! toString_base64 Sample.bob_spki = None /\
  sendDataTo (toString_base64 Sample.bob_spki) "t1" (mkData 42 "one")
    (REGISTERED_USERS (run initial Sample.registration).1)
  = Normal (REGISTERED_USERS (run initial Sample.registration).1, []).
Proof.
  assert (Hown : own (REGISTERED_USERS (run initial Sample.registration).1)
                   !! toString_base64 Sample.bob_spki = None)
    by (vm_compute; reflexivity).
  split; [exact Hown|].
  apply (sendDataTo_without_row Sample.registration Sample.bob_spki "t1" (mkData 42 "one"));
    [simpl; lia|exact Hown].
Defined.

(** ** The acknowledgement of a registration *)

(** C8, on the code: [alice] connects, is challenged, and sends the right
    solution together with an acknowledgement callback.  The registration
    succeeds, her mailbox is bound to her socket, and the only action of the
    whole run is the challenge: the callback is not called. *)
Theorem successful_registration_is_not_acknowledged :
  exists st,
    run initial [ (1%nat, Connection Sample.credentials Sample.crypto);
                  (1%nat, RegisterEvent (toString_base64 Sample.nonce) true) ]
      = (st, [Emit 1%nat (EvChallenge "qrvM" "3q0=")]) /\
    mailbox (REGISTERED_USERS st) Sample.alice = Some (mkMailbox (Some 1%nat) []).
Proof.
  eexists. split; vm_compute; reflexivity.
Qed.

(** ** Disconnection *)



(** ** Connections without a credential *)

(** A ['data'] event for a recipient that has a row is routed: delivered at
    once to the recipient's live socket, or appended to the queue. *)
Lemma on_data_routes (st : Server) (sock : Socket) (peerId sessionId : string)
    (data : Data) (mb : Mailbox) :
  quiescent (REGISTERED_USERS st) ->
  own (REGISTERED_USERS st) !! peerId = Some mb ->
  on_data sock peerId sessionId data st =
    match socket mb with
    | Some s => (st, [Emit s (EvData sessionId data)])
    | None =>
        (set_registry st
           (store (OwnRow peerId) (mkMailbox None (queue mb ++ [(sessionId, data)]))
                  (REGISTERED_USERS st)), [])
    end.
Proof.
  intros Hq Hmb. unfold on_data.
  rewrite (proj2 (hasOwn_true _ peerId)) by eauto. simpl.
  pose proof (get_own _ _ _ Hmb) as Hget.
  destruct (socket mb) as [s|] eqn:Hs.
  - rewrite (sendDataTo_bound _ _ _ _ _ _ _ Hget Hs).
    assert (Hempty : queue mb = []).
    { apply Hq; [left; by exists peerId|by rewrite Hs]. }
    rewrite Hempty. cbn [app map].
    assert (Hmb' : mb = mkMailbox (Some s) []).
    { destruct mb. simpl in *. congruence. }
    rewrite <- Hmb'. rewrite (store_id _ _ _ _ Hget). by destruct st.
  - by rewrite (sendDataTo_unbound _ _ _ _ _ _ Hget Hs).
Qed.

(** C7: a connection that presents no key, opened at any point of any run of
    the server, is sent nothing when it opens and has no ['register']
    listener.  Whatever events follow, of this or of other sockets: no
    challenge is ever emitted to it, no mailbox is ever bound to it, the
    name under which it is known, ['ANONYMOUS'], never has a row, no event
    of it adds a row to the registry, and a ['register'] event of it does
    nothing.  Still, while it is connected, a
    ['data'] event of it for a recipient that has a row is routed: delivered
    at once to the recipient's live socket, or appended to the recipient's
    queue. *)
Theorem anonymous_connection_sends_but_never_registers
    (history : list (Socket * ClientEvent)) (sock : Socket)
    (h : Handshake) (cr : Crypto) (evs : list (Socket * ClientEvent)) :
  let st := (run initial history).1 in
  sockets st !! sock = None ->
  truthy (key h) = false ->
  let st1 := (step st sock (Connection h cr)).1 in
  let st2 := (run st1 evs).1 in
  (step st sock (Connection h cr)).2 = [] /\
  sockets st1 !! sock = Some (mkConn "ANONYMOUS" None true) /\
  (forall i ch, Emit sock (EvChallenge i ch) ∉ (run st1 evs).2) /\
  ~ bound (REGISTERED_USERS st2) sock /\
  hasOwn (REGISTERED_USERS st2) "ANONYMOUS" = false /\
  (forall ev k,
      is_Some (own (REGISTERED_USERS (step st2 sock ev).1) !! k) ->
      is_Some (own (REGISTERED_USERS st2) !! k)) /\
  (forall solved ack, step st2 sock (RegisterEvent solved ack) = (st2, [])) /\
  (forall c peerId sessionId data ack mb,
      sockets st2 !! sock = Some c -> connected c = true ->
      own (REGISTERED_USERS st2) !! peerId = Some mb ->
      step st2 sock (DataEvent peerId sessionId data ack) =
        match socket mb with
        | Some s => (st2, [Emit s (EvData sessionId data)])
        | None =>
            (set_registry st2
               (store (OwnRow peerId) (mkMailbox None (queue mb ++ [(sessionId, data)]))
                      (REGISTERED_USERS st2)), [])
        end).
Proof.
  intros st Hnew Hkey st1 st2.
  assert (Hstep : step st sock (Connection h cr)
                  = (set_conn st sock (mkConn "ANONYMOUS" None true), [])).
  { unfold step. rewrite Hnew. unfold on_connection. rewrite Hkey.
    by destruct (spki cr), (recovered h). }
  assert (H1 : sockets st1 !! sock = Some (mkConn "ANONYMOUS" None true)).
  { subst st1. rewrite Hstep. apply lookup_insert_eq. }
  assert (Hcons : consistent st2).
  { apply consistent_run, consistent_step, consistent_run, consistent_initial. }
  destruct (run_sockets_kept st1 evs sock _ H1) as (c2 & H2 & _ & Hb2).
  simpl in Hb2. fold st2 in H2.
  split; [by rewrite Hstep|]. split; [done|].
  split; [intros i ch; by apply (run_no_challenge st1 evs sock _ i ch H1)|].
  split.
  { intros Hbound. destruct (consistent_bound _ Hcons sock Hbound) as (c & Hc & Hsome).
    rewrite H2 in Hc. simplify_eq. rewrite Hb2 in Hsome. by destruct Hsome. }
  split.
  { apply hasOwn_false. apply eq_None_not_Some. intros Hrow.
    destruct (consistent_rows _ Hcons _ Hrow) as [bytes Hbytes].
    symmetry in Hbytes. by apply base64_not_anonymous in Hbytes. }
  split.
  { intros ev k. destruct (step_registry st2 sock ev) as [->|(op & -> & Hop)]; [done|].
    intros [Hold|(s0 & Heq)]%apply_op_new_row; [done|].
    destruct (Hop _ _ Heq) as (_ & c & buf & Hc & _ & Hbuf). congruence. }
  split.
  { intros solved ack. unfold step. rewrite H2, Hb2. by destruct (connected c2). }
  intros c peerId sessionId data ack mb Hc Hconn Hmb.
  rewrite (step_data _ _ _ _ _ _ _ Hc Hconn).
  apply on_data_routes; [apply (consistent_quiescent _ Hcons)|done].
Qed.

Lemma anonymous_connection_sends_but_never_registers_witness :
  sockets (run initial Sample.registration).1 !! 5%nat = None /\
  truthy (key Sample.no_credentials) = false /\
  (step (run initial Sample.registration).1 5%nat
     (Connection Sample.no_credentials Sample.no_crypto)).2 = [] /\
  step (run (step (run initial Sample.registration).1 5%nat
               (Connection Sample.no_credentials Sample.no_crypto)).1 []).1
       5%nat (DataEvent Sample.alice "t1" (mkData 42 "one") false)
  = ((run (step (run initial Sample.registration).1 5%nat
             (Connection Sample.no_credentials Sample.no_crypto)).1 []).1,
     [Emit 1%nat (EvData "t1" (mkData 42 "one"))]).
Proof.
  assert (Hnew : sockets (run initial Sample.registration).1 !! 5%nat = None)
    by (vm_compute; reflexivity).
  pose proof (anonymous_connection_sends_but_never_registers Sample.registration 5%nat
                Sample.no_credentials Sample.no_crypto [] Hnew eq_refl)
    as (Hout & Hconn & _ & _ & _ & _ & _ & Hroute).
  split; [exact Hnew|]. split; [reflexivity|]. split; [exact Hout|].
  apply (Hroute Sample.anonymous_conn Sample.alice "t1" (mkData 42 "one") false
           (mkMailbox (Some 1%nat) []) Hconn eq_refl).
  vm_compute. reflexivity.
Defined.

Lemma bound_mailboxes_have_empty_queues_witness :
  mailbox (foldl apply_op empty_registry Sample.history) Sample.alice
    = Some (mkMailbox (Some 2%nat) []) /\
  is_Some (socket (mkMailbox (Some 2%nat) [])) /\
  queue (mkMailbox (Some 2%nat) []) = [].
Proof.
  assert (Hmb : mailbox (foldl apply_op empty_registry Sample.history) Sample.alice
                = Some (mkMailbox (Some 2%nat) []))
    by (vm_compute; reflexivity).
  split; [exact Hmb|]. split; [by eexists|].
  apply (bound_mailboxes_have_empty_queues Sample.history Sample.alice _ Hmb).
  by eexists.
Defined.

(** ** The handshake of a fresh connection *)



(** ** Further properties of the relay *)

(** X3.  In every state the relay reaches from its initial state: no envelope
    waits in a mailbox that has a live connection; the prototype of
    [REGISTERED_USERS] is still [Object.prototype]; every row is named by the
    base64 text of an exported key, so none is named ['ANONYMOUS']; and every
    socket bound in a mailbox is one that was challenged. *)
Theorem reachable_states_are_consistent (evs : list (Socket * ClientEvent)) :
  consistent (run initial evs).1 /\
  hasOwn (REGISTERED_USERS (run initial evs).1) "ANONYMOUS" = false.
Proof.
  assert (Hcons : consistent (run initial evs).1)
    by apply consistent_run, consistent_initial.
  split; [done|].
  apply hasOwn_false, eq_None_not_Some. intros Hrow.
  destruct (consistent_rows _ Hcons _ Hrow) as [bytes Hbytes].
  symmetry in Hbytes. by apply base64_not_anonymous in Hbytes.
Qed.

(** X2.  No listener calls an acknowledgement callback, whatever the event
    and its outcome. *)
Theorem no_event_is_acknowledged
    (st : Server) (evs : list (Socket * ClientEvent)) (s : Socket) :
  Ack s ∉ (run st evs).2.
Proof.
  revert st. induction evs as [|[s0 ev] evs IH]; intros st.
  - by intros ?%elem_of_nil.
  - rewrite run_cons. simpl. intros [Hin|Hin]%elem_of_app.
    + by apply step_never_acknowledges in Hin.
    + by apply IH in Hin.
Qed.

Lemma on_data_never_throws (st : Server) (s : Socket) (peerId sessionId : string)
    (data : Data) (s' : Socket) :
  Uncaught s' ∉ (on_data s peerId sessionId data st).2.
Proof.
  unfold on_data. destruct (hasOwn (REGISTERED_USERS st) peerId) eqn:Hown; simpl.
  - apply hasOwn_true in Hown as [mb Hmb].
    destruct (socket mb) as [s0|] eqn:Hs0.
    + rewrite (sendDataTo_bound _ _ sessionId data _ _ _ (get_own _ _ _ Hmb) Hs0). simpl.
      by intros (e & [=] & _)%list_elem_of_fmap.
    + rewrite (sendDataTo_unbound _ _ sessionId data _ _ (get_own _ _ _ Hmb) Hs0). simpl.
      by intros ?%elem_of_nil.
  - by intros [=]%list_elem_of_singleton.
Qed.

(** X4.  For events whose arguments have the types the listeners declare, no
    exception leaves a listener: the ['data'] listener calls [sendDataTo]
    only for an identity that has a row, for which it does not throw.  The
    only exception that is not caught is the rejection of the connection
    handler, for a new connection that is not a recovered one and presents a
    key the relay accepts, when [subtle.deriveKey] or [subtle.encrypt]
    rejects; the handler then leaves the socket with the ['data'] listener
    only, and has sent nothing. *)
Theorem no_listener_throws
    (st : Server) (s : Socket) (ev : ClientEvent) (s' : Socket) :
  Uncaught s' ∈ (step st s ev).2 ->
  s' = s /\ sockets st !! s = None /\
  exists h cr bytes,
    ev = Connection h cr /\ truthy (key h) = true /\ recovered h = false /\
    spki cr = Some bytes /\ (symKey cr = false \/ encryptedChallenge cr = None) /\
    step st s ev = (set_halted st s true, [Uncaught s]).
Proof.
  intros Hin.
  assert (Hev : exists h cr, ev = Connection h cr /\ sockets st !! s = None).
  { revert Hin. unfold step.
    destruct ev as [h cr|peerId sessionId data ack|solved ack|];
      destruct (sockets st !! s) as [c|] eqn:Hc; simpl; try (by intros ?%elem_of_nil).
    - by eauto.
    - destruct (connected c); [|by intros ?%elem_of_nil].
      by intros ?%on_data_never_throws.
    - destruct (halted st !! s) as [[|]|]; [|by intros ?%elem_of_nil..].
      by intros ?%on_data_never_throws.
    - destruct (connected c); [|by intros ?%elem_of_nil].
      destruct (challengeBuf c) as [buf|]; [|by intros ?%elem_of_nil].
      unfold on_register. destruct (String.eqb solved (toString_base64 buf)).
      + destruct (registerMailBox (clientKeyId c) s (REGISTERED_USERS st))
          as [R out] eqn:Hreg. simpl. intros Hin.
        destruct (registerMailBox_out (REGISTERED_USERS st) (clientKeyId c) s (Uncaught s'))
          as [e He]; [by rewrite Hreg|done].
      + simpl. by intros [=]%list_elem_of_singleton.
    - destruct (connected c); by intros ?%elem_of_nil.
    - destruct (halted st !! s) as [[|]|]; by intros ?%elem_of_nil. }
  destruct Hev as (h & cr & -> & Hnew). revert Hin.
  unfold step. rewrite Hnew. unfold on_connection.
  destruct (truthy (key h)) eqn:Hkey; [|by destruct (recovered h); intros ?%elem_of_nil].
  destruct (spki cr) as [bytes|] eqn:Hspki; [|by intros [=]%list_elem_of_singleton].
  destruct (recovered h) eqn:Hrec; [by intros ?%elem_of_nil|]. simpl.
  destruct (symKey cr) eqn:Hsym.
  - destruct (encryptedChallenge cr) as [encrypted|] eqn:Henc.
    + by intros [=]%list_elem_of_singleton.
    + intros [= ->]%list_elem_of_singleton. do 2 (split; [done|]).
      exists h, cr, bytes. do 4 (split; [done|]). split; [by right|done].
  - intros [= ->]%list_elem_of_singleton. do 2 (split; [done|]).
    exists h, cr, bytes. do 4 (split; [done|]). split; [by left|done].
Qed.

Lemma no_listener_throws_witness :
  Uncaught 3%nat ∈ (step initial 3%nat (Connection Sample.credentials Sample.no_shared_key)).2 /\
  step initial 3%nat (Connection Sample.credentials Sample.no_shared_key)
  = (set_halted initial 3%nat true, [Uncaught 3%nat]).
Proof.
  assert (Hin : Uncaught 3%nat
                  ∈ (step initial 3%nat
                       (Connection Sample.credentials Sample.no_shared_key)).2).
  { replace (step initial 3%nat (Connection Sample.credentials Sample.no_shared_key)).2
      with [Uncaught 3%nat] by (vm_compute; reflexivity).
    by left. }
  split; [exact Hin|].
  destruct (no_listener_throws _ _ _ _ Hin)
    as (_ & _ & h & cr & bytes & _ & _ & _ & _ & _ & Hstep).
  exact Hstep.
Defined.

(** X1.  The ['disconnect'] listener does not look at which socket is bound: when
    a connected socket is disconnected, the mailbox of its identity loses its
    live connection even if that is another socket.  The same happens when
    the socket fails the challenge. *)
Theorem disconnect_unbinds_any_socket
    (st : Server) (sock other : Socket) (c : Conn) (mb : Mailbox)
    (buf : list Byte.byte) (solved : string) (ack : bool) :
  sockets st !! sock = Some c ->
  connected c = true ->
  own (REGISTERED_USERS st) !! clientKeyId c = Some mb ->
  socket mb = Some other ->
  other <> sock ->
  own (REGISTERED_USERS (step st sock DisconnectEvent).1) !! clientKeyId c
    = Some (mkMailbox None (queue mb)) /\
  (challengeBuf c = Some buf -> solved <> toString_base64 buf ->
   own (REGISTERED_USERS (step st sock (RegisterEvent solved ack)).1) !! clientKeyId c
     = Some (mkMailbox None (queue mb))).
Proof.
  intros Hc Hconn Hmb Hs Hne.
  assert (Hun : own (REGISTERED_USERS (on_disconnect sock c st)) !! clientKeyId c
                = Some (mkMailbox None (queue mb))).
  { unfold on_disconnect, set_conn, set_registry, unbind. cbn [REGISTERED_USERS].
    rewrite (get_own _ _ _ Hmb). apply lookup_insert_eq. }
  split.
  - by rewrite (step_disconnect _ _ _ Hc Hconn).
  - intros Hbuf Hwrong. rewrite (step_register _ _ _ _ _ _ Hc Hconn Hbuf).
    unfold on_register. by rewrite (proj2 (String.eqb_neq _ _) Hwrong).
Qed.

Lemma disconnect_unbinds_any_socket_witness :
  own (REGISTERED_USERS Sample.with_impostor) !! Sample.alice
    = Some (mkMailbox (Some 1%nat) []) /\
  sockets Sample.with_impostor !! 2%nat = Some Sample.alice_conn /\
  own (REGISTERED_USERS (step Sample.with_impostor 2%nat DisconnectEvent).1)
    !! clientKeyId Sample.alice_conn = Some (mkMailbox None []).
Proof.
  assert (Hmb : own (REGISTERED_USERS Sample.with_impostor) !! clientKeyId Sample.alice_conn
                = Some (mkMailbox (Some 1%nat) []))
    by (vm_compute; reflexivity).
  assert (Hc : sockets Sample.with_impostor !! 2%nat = Some Sample.alice_conn)
    by (vm_compute; reflexivity).
  split; [exact Hmb|]. split; [exact Hc|].
  apply (proj1 (disconnect_unbinds_any_socket Sample.with_impostor 2%nat 1%nat
                  Sample.alice_conn (mkMailbox (Some 1%nat) []) [] "" false
                  Hc eq_refl Hmb eq_refl ltac:(discriminate))).
Defined.

(** A ['data'] event for a recipient whose mailbox has no live connection
    only appends the envelope to the queue. *)
Lemma step_data_queues (st : Server) (sock : Socket) (c : Conn)
    (peerId sessionId : string) (data : Data) (ack : bool) (mb : Mailbox) :
  sockets st !! sock = Some c -> connected c = true ->
  own (REGISTERED_USERS st) !! peerId = Some mb -> socket mb = None ->
  step st sock (DataEvent peerId sessionId data ack) =
    (set_registry st
       (store (OwnRow peerId) (mkMailbox None (queue mb ++ [(sessionId, data)]))
              (REGISTERED_USERS st)), []).
Proof.
  intros Hc Hconn Hmb Hs. rewrite (step_data _ _ _ _ _ _ _ Hc Hconn).
  unfold on_data. rewrite (proj2 (hasOwn_true _ peerId)) by eauto. simpl.
  by rewrite (sendDataTo_unbound _ _ _ _ _ _ (get_own _ _ _ Hmb) Hs).
Qed.

(** X5.  The offline delivery from end to end: the identity [I] has a
    mailbox without a live connection; a connected socket sends it three
    envelopes; then a new socket presents the key of [I], is challenged
    ([subtle.deriveKey] and [subtle.encrypt] fulfil) and answers with the
    base64 text of the nonce.  All the server emits in this
    run goes to the new socket: the challenge, then the envelopes that were
    already waiting, then the three new ones in the order they were sent;
    afterwards the mailbox is bound to the new socket and its queue is
    empty. *)
Theorem offline_delivery_end_to_end
    (st : Server) (sender sock : Socket) (c : Conn) (bytes encrypted : list Byte.byte)
    (mb : Mailbox) (h : Handshake) (cr : Crypto)
    (s1 s2 s3 : string) (d1 d2 d3 : Data) (a1 a2 a3 ack : bool) :
  let I := toString_base64 bytes in
  let evs :=
    [ (sender, DataEvent I s1 d1 a1); (sender, DataEvent I s2 d2 a2);
      (sender, DataEvent I s3 d3 a3); (sock, Connection h cr);
      (sock, RegisterEvent (toString_base64 (challenge cr)) ack) ] in
  sockets st !! sender = Some c -> connected c = true ->
  own (REGISTERED_USERS st) !! I = Some mb -> socket mb = None ->
  sockets st !! sock = None ->
  truthy (key h) = true -> recovered h = false -> spki cr = Some bytes ->
  symKey cr = true -> encryptedChallenge cr = Some encrypted ->
  (run st evs).2 =
    Emit sock (EvChallenge (toString_base64 (iv cr)) (toString_base64 encrypted))
    :: map (deliver sock) (queue mb)
    ++ [Emit sock (EvData s1 d1); Emit sock (EvData s2 d2); Emit sock (EvData s3 d3)] /\
  own (REGISTERED_USERS (run st evs).1) !! I = Some (mkMailbox (Some sock) []).
Proof.
  intros I evs Hc Hconn Hmb Hs Hnew Hkey Hrec Hspki Hsym Henc. subst evs.
  pose (q1 := queue mb ++ [(s1, d1)]).
  pose (q2 := q1 ++ [(s2, d2)]).
  pose (q3 := q2 ++ [(s3, d3)]).
  rewrite run_cons, (step_data_queues _ _ _ _ _ _ _ _ Hc Hconn Hmb Hs). cbn [fst snd].
  set (st1 := set_registry st _).
  assert (H1 : own (REGISTERED_USERS st1) !! I = Some (mkMailbox None q1))
    by apply lookup_insert_eq.
  rewrite run_cons, (step_data_queues st1 _ _ _ _ _ _ _ Hc Hconn H1 eq_refl). cbn [fst snd].
  set (st2 := set_registry st1 _).
  assert (H2 : own (REGISTERED_USERS st2) !! I = Some (mkMailbox None q2))
    by apply lookup_insert_eq.
  rewrite run_cons, (step_data_queues st2 _ _ _ _ _ _ _ Hc Hconn H2 eq_refl). cbn [fst snd].
  set (st3 := set_registry st2 _).
  assert (H3 : own (REGISTERED_USERS st3) !! I = Some (mkMailbox None q3))
    by apply lookup_insert_eq.
  assert (Hstep : step st3 sock (Connection h cr)
                  = (set_conn st3 sock (mkConn I (Some (challenge cr)) true),
                     [Emit sock (EvChallenge (toString_base64 (iv cr))
                                             (toString_base64 encrypted))])).
  { by apply step_challenge. }
  rewrite run_cons, Hstep. cbn [fst snd].
  set (st4 := set_conn st3 _ _).
  assert (H4 : sockets st4 !! sock = Some (mkConn I (Some (challenge cr)) true))
    by apply lookup_insert_eq.
  rewrite run_cons, (step_register st4 _ _ _ _ _ H4 eq_refl eq_refl).
  unfold on_register. rewrite String.eqb_refl. cbn [clientKeyId].
  rewrite (registerMailBox_existing _ _ _ _ H3 : registerMailBox I sock (REGISTERED_USERS st4) = _).
  cbn [fst snd run app queue]. split.
  - rewrite app_nil_r. unfold q3, q2, q1. rewrite !map_app. cbn [map deliver fst snd].
    by rewrite <- !app_assoc.
  - apply lookup_insert_eq.
Qed.

Lemma offline_delivery_end_to_end_witness :
  sockets Sample.with_sender !! 5%nat = Some Sample.anonymous_conn /\
  own (REGISTERED_USERS Sample.with_sender) !! toString_base64 Sample.alice_spki
    = Some (mkMailbox None []) /\
  (run Sample.with_sender
     [ (5%nat, DataEvent (toString_base64 Sample.alice_spki) "t1" (mkData 42 "one") false);
       (5%nat, DataEvent (toString_base64 Sample.alice_spki) "t2" (mkData 3 "two") false);
       (5%nat, DataEvent (toString_base64 Sample.alice_spki) "t3" (mkData 7 "three") false);
       (2%nat, Connection Sample.credentials Sample.crypto);
       (2%nat, RegisterEvent (toString_base64 (challenge Sample.crypto)) false) ]).2
  = [ Emit 2%nat (EvChallenge "qrvM" "3q0=");
      Emit 2%nat (EvData "t1" (mkData 42 "one"));
      Emit 2%nat (EvData "t2" (mkData 3 "two"));
      Emit 2%nat (EvData "t3" (mkData 7 "three")) ].
Proof.
  assert (Hmb : own (REGISTERED_USERS Sample.with_sender) !! toString_base64 Sample.alice_spki
                = Some (mkMailbox None []))
    by (vm_compute; reflexivity).
  assert (Hc : sockets Sample.with_sender !! 5%nat = Some Sample.anonymous_conn)
    by (vm_compute; reflexivity).
  assert (Hnew : sockets Sample.with_sender !! 2%nat = None)
    by (vm_compute; reflexivity).
  split; [exact Hc|]. split; [exact Hmb|].
  exact (proj1 (offline_delivery_end_to_end Sample.with_sender 5%nat 2%nat
                  Sample.anonymous_conn Sample.alice_spki [Byte.xde; Byte.xad]
                  (mkMailbox None [])
                  Sample.credentials Sample.crypto "t1" "t2" "t3"
                  (mkData 42 "one") (mkData 3 "two") (mkData 7 "three")
                  false false false false
                  Hc eq_refl Hmb eq_refl Hnew eq_refl eq_refl eq_refl eq_refl eq_refl)).
Defined.

(** ** The base64 text of a buffer *)

Lemma base64_value_digit (n : N) :
  base64_value (Base64.digit n) = Some (n mod 64)%N.
Proof.
  assert (Hsmall : forall k : nat, (k < 64)%nat ->
            base64_value (Base64.digit (N.of_nat k)) = Some (N.of_nat k)).
  { intros k Hk.
    do 64 (destruct k as [|k]; [vm_compute; reflexivity|]). lia. }
  assert (Hlt : (n mod 64 < 64)%N) by (apply N.mod_lt; lia).
  assert (Hdigit : Base64.digit n = Base64.digit (n mod 64)).
  { unfold Base64.digit. by rewrite N.Div0.mod_mod. }
  rewrite Hdigit. rewrite <- (N2Nat.id (n mod 64)). rewrite Hsmall by lia.
  by rewrite N2Nat.id.
Qed.

Lemma base64_digit_inj (n m : N) :
  Base64.digit n = Base64.digit m -> (n mod 64 = m mod 64)%N.
Proof.
  intros H. pose proof (base64_value_digit n) as Hn.
  rewrite H, base64_value_digit in Hn. congruence.
Qed.

Lemma base64_digit_not_pad (n : N) : Base64.digit n <> Base64.pad.
Proof.
  intros H. pose proof (base64_value_digit n) as Hn. by rewrite H in Hn.
Qed.

Lemma group_bound (a b c : Byte.byte) : (Base64.group a b c < 16777216)%N.
Proof.
  unfold Base64.group.
  pose proof (Byte.to_N_bounded a). pose proof (Byte.to_N_bounded b).
  pose proof (Byte.to_N_bounded c). lia.
Qed.

Lemma byte_to_N_inj (a b : Byte.byte) : Byte.to_N a = Byte.to_N b -> a = b.
Proof.
  intros H. pose proof (Byte.of_to_N a) as Ha. rewrite H, Byte.of_to_N in Ha.
  congruence.
Qed.

(** The 6-bit groups of a 24-bit number, from the top. *)
Lemma sextets_top (n : N) :
  (n < 16777216)%N ->
  (n / 4096 = ((n / 262144) mod 64) * 64 + (n / 4096) mod 64)%N.
Proof.
  intros Hn. pose proof (N.div_mod' (n / 4096) 64) as H.
  rewrite N.Div0.div_div in H. change (4096 * 64)%N with 262144%N in H.
  rewrite (N.mod_small (n / 262144)); [lia|].
  apply N.Div0.div_lt_upper_bound. lia.
Qed.

Lemma sextets_mid (n : N) : (n / 64 = (n / 4096) * 64 + (n / 64) mod 64)%N.
Proof.
  pose proof (N.div_mod' (n / 64) 64) as H. rewrite N.Div0.div_div in H.
  change (64 * 64)%N with 4096%N in H. lia.
Qed.

Lemma sextets_low (n : N) : (n = (n / 64) * 64 + n mod 64)%N.
Proof. pose proof (N.div_mod' n 64). lia. Qed.

(** Two digits fix the first byte, three the first two, four all three. *)
Lemma two_digits (n m : N) :
  (n < 16777216)%N -> (m < 16777216)%N ->
  Base64.digit (n / 262144) = Base64.digit (m / 262144) ->
  Base64.digit (n / 4096) = Base64.digit (m / 4096) ->
  (n / 4096 = m / 4096)%N.
Proof.
  intros Hn Hm H1%base64_digit_inj H2%base64_digit_inj.
  rewrite (sextets_top n Hn), (sextets_top m Hm). congruence.
Qed.

Lemma three_digits (n m : N) :
  (n < 16777216)%N -> (m < 16777216)%N ->
  Base64.digit (n / 262144) = Base64.digit (m / 262144) ->
  Base64.digit (n / 4096) = Base64.digit (m / 4096) ->
  Base64.digit (n / 64) = Base64.digit (m / 64) ->
  (n / 64 = m / 64)%N.
Proof.
  intros Hn Hm H1 H2 H3%base64_digit_inj.
  rewrite (sextets_mid n), (sextets_mid m), (two_digits n m Hn Hm H1 H2). congruence.
Qed.

Lemma four_digits (n m : N) :
  (n < 16777216)%N -> (m < 16777216)%N ->
  Base64.digit (n / 262144) = Base64.digit (m / 262144) ->
  Base64.digit (n / 4096) = Base64.digit (m / 4096) ->
  Base64.digit (n / 64) = Base64.digit (m / 64) ->
  Base64.digit n = Base64.digit m ->
  n = m.
Proof.
  intros Hn Hm H1 H2 H3 H4%base64_digit_inj.
  rewrite (sextets_low n), (sextets_low m), (three_digits n m Hn Hm H1 H2 H3). congruence.
Qed.

Lemma group_inj (a b c a' b' c' : Byte.byte) :
  Base64.group a b c = Base64.group a' b' c' -> a = a' /\ b = b' /\ c = c'.
Proof.
  unfold Base64.group. intros H.
  pose proof (Byte.to_N_bounded a). pose proof (Byte.to_N_bounded b).
  pose proof (Byte.to_N_bounded c). pose proof (Byte.to_N_bounded a').
  pose proof (Byte.to_N_bounded b'). pose proof (Byte.to_N_bounded c').
  repeat split; apply byte_to_N_inj; lia.
Qed.

Lemma group_div_4096 (a : Byte.byte) :
  (Base64.group a Byte.x00 Byte.x00 / 4096 = Byte.to_N a * 16)%N.
Proof.
  unfold Base64.group. change (Byte.to_N Byte.x00) with 0%N.
  replace (Byte.to_N a * 65536 + 0 * 256 + 0)%N with (Byte.to_N a * 16 * 4096)%N by lia.
  by rewrite N.div_mul.
Qed.

Lemma group_div_64 (a b : Byte.byte) :
  (Base64.group a b Byte.x00 / 64 = Byte.to_N a * 1024 + Byte.to_N b * 4)%N.
Proof.
  unfold Base64.group. change (Byte.to_N Byte.x00) with 0%N.
  replace (Byte.to_N a * 65536 + Byte.to_N b * 256 + 0)%N
    with ((Byte.to_N a * 1024 + Byte.to_N b * 4) * 64)%N by lia.
  by rewrite N.div_mul.
Qed.

Lemma base64_encode_inj (a b : list Byte.byte) :
  Base64.encode a = Base64.encode b -> a = b.
Proof.
  revert b. induction a as [|x|x y|x y z l IH] using list_ind_by_three;
    intros [|x' [|y' [|z' l']]] H; cbn [Base64.encode] in H; cbv zeta in H;
    try discriminate; try done.
  - injection H as H1 H2. f_equal. apply byte_to_N_inj.
    pose proof (two_digits _ _ (group_bound x Byte.x00 Byte.x00)
                  (group_bound x' Byte.x00 Byte.x00) H1 H2) as Heq.
    rewrite !group_div_4096 in Heq. lia.
  - injection H as _ _ H3. symmetry in H3. by apply base64_digit_not_pad in H3.
  - injection H as _ _ H3. symmetry in H3. by apply base64_digit_not_pad in H3.
  - injection H as _ _ H3. by apply base64_digit_not_pad in H3.
  - injection H as H1 H2 H3.
    pose proof (three_digits _ _ (group_bound x y Byte.x00)
                  (group_bound x' y' Byte.x00) H1 H2 H3) as Heq.
    rewrite !group_div_64 in Heq.
    pose proof (Byte.to_N_bounded y). pose proof (Byte.to_N_bounded y').
    f_equal; [|f_equal]; apply byte_to_N_inj; lia.
  - injection H as _ _ _ H4. symmetry in H4. by apply base64_digit_not_pad in H4.
  - injection H as _ _ H3. by apply base64_digit_not_pad in H3.
  - injection H as _ _ _ H4. by apply base64_digit_not_pad in H4.
  - injection H as H1 H2 H3 H4 Hrest.
    destruct (group_inj _ _ _ _ _ _
                (four_digits _ _ (group_bound x y z) (group_bound x' y' z') H1 H2 H3 H4))
      as (-> & -> & ->).
    by rewrite (IH _ Hrest).
Qed.

Lemma identity_determines_the_key_aux (a b : list Byte.byte) :
  toString_base64 a = toString_base64 b <-> a = b.
Proof.
  split; [apply base64_encode_inj|by intros ->].
Qed.

(** X6.  The text under which the relay knows an identity, and against which
    it compares a solution, determines the bytes it was made of: two exported
    keys have the same identity exactly when they are the same bytes. *)
Theorem identity_determines_the_key (a b : list Byte.byte) :
  toString_base64 a = toString_base64 b <-> a = b.
Proof. apply identity_determines_the_key_aux. Qed.

(** X7.  A client that answers the challenge with the base64 text of some
    bytes is registered exactly when these bytes are the nonce: on a
    connected socket whose ['register'] listener holds the nonce [buf], the
    identity's mailbox is bound to the socket after the event iff the bytes
    are [buf]. *)
Theorem solution_is_accepted_only_for_the_nonce
    (st : Server) (sock : Socket) (c : Conn) (buf answer : list Byte.byte) (ack : bool) :
  sockets st !! sock = Some c ->
  connected c = true ->
  challengeBuf c = Some buf ->
  (exists mb,
      mailbox (REGISTERED_USERS
                 (step st sock (RegisterEvent (toString_base64 answer) ack)).1)
              (clientKeyId c) = Some mb
      /\ socket mb = Some sock)
  <-> answer = buf.
Proof.
  intros Hc Hconn Hbuf.
  destruct (register_event_spec st sock c buf (toString_base64 answer) ack Hc Hconn Hbuf)
    as (Hiff & _).
  rewrite Hiff. apply identity_determines_the_key_aux.
Qed.

Lemma solution_is_accepted_only_for_the_nonce_witness :
  sockets Sample.with_impostor !! 2%nat = Some Sample.alice_conn /\
  ((exists mb,
       mailbox (REGISTERED_USERS
                  (step Sample.with_impostor 2%nat
                     (RegisterEvent (toString_base64 Sample.alice_spki) false)).1)
               (clientKeyId Sample.alice_conn) = Some mb
       /\ socket mb = Some 2%nat)
   <-> Sample.alice_spki = Sample.nonce).
Proof.
  assert (Hc : sockets Sample.with_impostor !! 2%nat = Some Sample.alice_conn)
    by (vm_compute; reflexivity).
  split; [exact Hc|].
  exact (solution_is_accepted_only_for_the_nonce Sample.with_impostor 2%nat
           Sample.alice_conn Sample.nonce Sample.alice_spki false Hc eq_refl eq_refl).
Defined.

(** ** One identity at a time *)

Lemma store_other_row (R : Registry) (k j : string) (r : Ref) (mb0 mb : Mailbox) :
  get R k = VMailbox r mb0 -> j <> k -> own (store r mb R) !! j = own R !! j.
Proof.
  intros [[-> _]|(-> & _)]%get_mailbox_inv Hne; simpl; [|done].
  by apply lookup_insert_ne.
Qed.

Lemma assign_other_row (R : Registry) (k j : string) (mb : Mailbox) :
  j <> k -> own (assign k mb R) !! j = own R !! j.
Proof.
  intros Hne. unfold assign.
  destruct (bool_decide (k = "__proto__"%string) && negb (hasOwn R k)); simpl; [done|].
  by apply lookup_insert_ne.
Qed.

Lemma apply_op_other_row (R : Registry) (op : RegistryOp) (j : string) :
  match op with
  | OpRegister k _ | OpSend k _ _ | OpUnbind k => j <> k
  end ->
  own (apply_op R op) !! j = own R !! j.
Proof.
  intros Hne. destruct op as [k' s|k' sessionId data|k']; simpl in *.
  - destruct (own R !! k') as [mb'|] eqn:Hown.
    + rewrite (registerMailBox_existing _ _ _ _ Hown). cbn [fst].
      apply (store_other_row _ k' _ _ mb'); [by apply get_own|done].
    + unfold registerMailBox. rewrite (proj2 (hasOwn_false R k') Hown).
      by apply assign_other_row.
  - destruct (get R k') as [|r' mb'|] eqn:Hget'.
    + unfold sendDataTo, flushDataQueue. by rewrite Hget'.
    + destruct (socket mb') as [s|] eqn:Hs.
      * rewrite (sendDataTo_bound _ _ _ _ _ _ _ Hget' Hs).
        by apply (store_other_row _ k' _ _ mb').
      * rewrite (sendDataTo_unbound _ _ _ _ _ _ Hget' Hs).
        by apply (store_other_row _ k' _ _ mb').
    + unfold sendDataTo. by rewrite Hget'.
  - unfold unbind. destruct (get R k') as [|r' mb'|] eqn:Hget'; [done| |done].
    by apply (store_other_row _ k' _ _ mb').
Qed.

(** X8.  The registry operations work on one identity: [registerMailBox],
    [sendDataTo], [flushDataQueue] and the write of the ['disconnect']
    listener for the identity [k] leave the row of every other identity as it
    was, socket and queue. *)
Theorem operations_touch_one_identity (R : Registry) (k j : string) :
  j <> k ->
  (forall s, own (registerMailBox k s R).1 !! j = own R !! j) /\
  (forall sessionId data R' out,
      sendDataTo k sessionId data R = Normal (R', out) -> own R' !! j = own R !! j) /\
  own (flushDataQueue k R).1 !! j = own R !! j /\
  own (unbind k R) !! j = own R !! j.
Proof.
  intros Hne. split; [|split; [|split]].
  - intros s. by apply (apply_op_other_row R (OpRegister k s)).
  - intros sessionId data R' out Hsend.
    pose proof (apply_op_other_row R (OpSend k sessionId data) j Hne) as H.
    simpl in H. by rewrite Hsend in H.
  - destruct (get R k) as [|r mb|] eqn:Hget.
    + by rewrite flushDataQueue_no_mailbox by (unfold mailbox; by rewrite Hget).
    + destruct (socket mb) as [s|] eqn:Hs.
      * rewrite (flushDataQueue_bound _ _ _ _ _ Hget Hs).
        by apply (store_other_row _ k _ _ mb).
      * by rewrite (flushDataQueue_unbound _ _ _ _ Hget Hs).
    + by rewrite flushDataQueue_no_mailbox by (unfold mailbox; by rewrite Hget).
  - by apply (apply_op_other_row R (OpUnbind k)).
Qed.

Lemma operations_touch_one_identity_witness :
  own (registerMailBox "bob" 3%nat Sample.offline_with_mail).1 !! Sample.alice
  = own Sample.offline_with_mail !! Sample.alice.
Proof.
  apply (operations_touch_one_identity Sample.offline_with_mail "bob" Sample.alice).
  discriminate.
Defined.

(** X9.  [registerMailBox] is idempotent: registering the same identity
    through the same socket a second time changes nothing and emits
    nothing. *)
Theorem registerMailBox_idempotent (R : Registry) (k : string) (s : Socket) :
  registerMailBox k s (registerMailBox k s R).1 = ((registerMailBox k s R).1, []).
Proof.
  destruct (own R !! k) as [mb|] eqn:Hown.
  - rewrite (registerMailBox_existing _ _ _ _ Hown). cbn [fst].
    erewrite registerMailBox_existing; [|apply lookup_insert_eq].
    by rewrite store_store.
  - unfold registerMailBox at 2 3. rewrite (proj2 (hasOwn_false R k) Hown). cbn [fst].
    unfold assign. rewrite (proj2 (hasOwn_false R k) Hown).
    case_bool_decide as Hk; simpl.
    + subst k. unfold registerMailBox, assign, hasOwn. simpl.
      rewrite bool_decide_eq_false_2 by (rewrite Hown; by intros [? ?]). by simpl.
    + erewrite registerMailBox_existing; [|apply lookup_insert_eq].
      unfold store. simpl. by rewrite insert_insert_eq.
Qed.

(** X10.  [flushDataQueue] is idempotent and leaves the binding alone: after
    a flush the mailbox has the socket it had, a second flush emits nothing
    and changes nothing; and a flush for a mailbox without a live connection
    changes nothing at all. *)
Theorem flushDataQueue_idempotent (R : Registry) (k : string) :
  flushDataQueue k (flushDataQueue k R).1 = ((flushDataQueue k R).1, []) /\
  (forall mb, mailbox R k = Some mb ->
     exists mb', mailbox (flushDataQueue k R).1 k = Some mb' /\ socket mb' = socket mb) /\
  (forall mb, mailbox R k = Some mb -> socket mb = None -> flushDataQueue k R = (R, [])).
Proof.
  destruct (get R k) as [|r mb|] eqn:Hget.
  - assert (Hno : mailbox R k = None) by (unfold mailbox; by rewrite Hget).
    rewrite !(flushDataQueue_no_mailbox _ _ Hno). cbn [fst].
    rewrite (flushDataQueue_no_mailbox _ _ Hno), Hno. by repeat split.
  - assert (Hmb : mailbox R k = Some mb) by (unfold mailbox; by rewrite Hget).
    rewrite Hmb. destruct (socket mb) as [s|] eqn:Hs.
    + rewrite (flushDataQueue_bound _ _ _ _ _ Hget Hs). cbn [fst].
      pose proof (get_store _ _ _ _ (mkMailbox (Some s) []) Hget) as Hget'.
      rewrite (flushDataQueue_bound _ _ _ _ _ Hget' eq_refl), store_store.
      split; [done|]. split.
      * intros mb0 [= <-]. exists (mkMailbox (Some s) []).
        unfold mailbox. by rewrite Hget', Hs.
      * intros mb0 [= <-]. congruence.
    + rewrite (flushDataQueue_unbound _ _ _ _ Hget Hs). cbn [fst].
      rewrite (flushDataQueue_unbound _ _ _ _ Hget Hs), Hmb.
      split; [done|]. split; [|done]. intros mb0 [= <-]. by exists mb.
  - assert (Hno : mailbox R k = None) by (unfold mailbox; by rewrite Hget).
    rewrite !(flushDataQueue_no_mailbox _ _ Hno). cbn [fst].
    rewrite (flushDataQueue_no_mailbox _ _ Hno), Hno. by repeat split.
Qed.

(** ** Nothing is lost and nothing is delivered twice *)

Lemma envelopes_of_deliver (s : Socket) (l : list Envelope) :
  envelopes_of (map (deliver s) l) = l.
Proof.
  induction l as [|[sessionId data] l IH]; [done|]. simpl. by rewrite IH.
Qed.

Lemma waiting_other (R : Registry) (op : RegistryOp) (j : string) :
  match op with
  | OpRegister k _ | OpSend k _ _ | OpUnbind k => j <> k
  end ->
  waiting (apply_op R op) j = waiting R j.
Proof. intros Hne. unfold waiting. by rewrite (apply_op_other_row R op j Hne). Qed.

Lemma waiting_unbind (R : Registry) (k j : string) :
  waiting (unbind k R) j = waiting R j.
Proof.
  destruct (decide (j = k)) as [->|Hne]; [|by apply (waiting_other R (OpUnbind k))].
  unfold unbind. destruct (get R k) as [|r mb|] eqn:Hget; [done| |done].
  unfold waiting.
  destruct (get_mailbox_inv _ _ _ _ Hget) as [[-> Hown]|(-> & Hown & _)]; simpl.
  - by rewrite lookup_insert_eq, Hown.
  - done.
Qed.

Lemma waiting_registerMailBox (R : Registry) (k : string) (s : Socket) :
  envelopes_of (registerMailBox k s R).2 ++ waiting (registerMailBox k s R).1 k
  = waiting R k.
Proof.
  unfold waiting at 2. destruct (own R !! k) as [mb|] eqn:Hown.
  - rewrite (registerMailBox_existing _ _ _ _ Hown). cbn [fst snd].
    rewrite envelopes_of_deliver. unfold waiting. simpl.
    by rewrite lookup_insert_eq, app_nil_r.
  - unfold registerMailBox. rewrite (proj2 (hasOwn_false R k) Hown). cbn [fst snd].
    unfold waiting, assign. rewrite (proj2 (hasOwn_false R k) Hown).
    case_bool_decide; simpl.
    + by rewrite Hown.
    + by rewrite lookup_insert_eq.
Qed.

Lemma waiting_sendDataTo (R : Registry) (k sessionId : string) (data : Data) (mb : Mailbox) :
  own R !! k = Some mb ->
  exists R' out,
    sendDataTo k sessionId data R = Normal (R', out) /\
    envelopes_of out ++ waiting R' k = queue mb ++ [(sessionId, data)].
Proof.
  intros Hown. pose proof (get_own _ _ _ Hown) as Hget.
  destruct (socket mb) as [s|] eqn:Hs.
  - rewrite (sendDataTo_bound _ _ _ _ _ _ _ Hget Hs). eexists _, _. split; [done|].
    rewrite envelopes_of_deliver. unfold waiting. simpl.
    by rewrite lookup_insert_eq, app_nil_r.
  - rewrite (sendDataTo_unbound _ _ _ _ _ _ Hget Hs). eexists _, _. split; [done|].
    unfold waiting. simpl. by rewrite lookup_insert_eq.
Qed.

Lemma on_data_ledger (st : Server) (s : Socket) (peerId sessionId : string)
    (data : Data) (I : string) :
  (if String.eqb peerId I then envelopes_of (on_data s peerId sessionId data st).2 else [])
    ++ waiting (REGISTERED_USERS (on_data s peerId sessionId data st).1) I
  = waiting (REGISTERED_USERS st) I
    ++ (if hasOwn (REGISTERED_USERS st) peerId && String.eqb peerId I
        then [(sessionId, data)] else []).
Proof.
  unfold on_data.
  destruct (hasOwn (REGISTERED_USERS st) peerId) eqn:Hown; simpl.
  - apply hasOwn_true in Hown as [mb Hmb].
    destruct (waiting_sendDataTo _ peerId sessionId data mb Hmb)
      as (R' & out & Hsend & Hacc).
    rewrite Hsend. cbn [fst snd set_registry REGISTERED_USERS].
    destruct (String.eqb_spec peerId I) as [<-|Hne].
    + rewrite Hacc. unfold waiting. by rewrite Hmb.
    + pose proof (waiting_other (REGISTERED_USERS st)
                    (OpSend peerId sessionId data) I) as Hother.
      simpl in Hother. rewrite Hsend in Hother. rewrite Hother by congruence.
      by rewrite app_nil_r.
  - destruct (String.eqb peerId I); simpl; by rewrite app_nil_r.
Qed.

(** The account of one event. *)
Lemma step_ledger (st : Server) (s : Socket) (ev : ClientEvent) (I : string) :
  (if concerns st s ev I then envelopes_of (step st s ev).2 else [])
    ++ waiting (REGISTERED_USERS (step st s ev).1) I
  = waiting (REGISTERED_USERS st) I ++ accepted_by st s ev I.
Proof.
  assert (Hnothing : forall b : bool,
            (if b then envelopes_of [] else [])
              ++ waiting (REGISTERED_USERS st) I
            = waiting (REGISTERED_USERS st) I ++ []).
  { intros b. rewrite app_nil_r. by destruct b. }
  unfold step, accepted_by, concerns, data_listener.
  destruct ev as [h cr|peerId sessionId data ack|solved ack|];
    destruct (sockets st !! s) as [c|] eqn:Hc; cbn [fst snd];
    try apply (Hnothing false); try apply Hnothing.
  - unfold on_connection.
    destruct (truthy (key h)), (spki cr), (recovered h), (symKey cr),
      (encryptedChallenge cr); simpl; by rewrite app_nil_r.
  - destruct (connected c); [|apply Hnothing]. apply on_data_ledger.
  - destruct (halted st !! s) as [[|]|]; simpl; [|apply Hnothing..].
    apply on_data_ledger.
  - destruct (connected c); [|apply Hnothing].
    destruct (challengeBuf c) as [buf|]; [|apply Hnothing].
    unfold on_register. destruct (String.eqb solved (toString_base64 buf)).
    + destruct (registerMailBox (clientKeyId c) s (REGISTERED_USERS st))
        as [R' out] eqn:Hreg. cbn [fst snd set_registry REGISTERED_USERS].
      rewrite app_nil_r.
      destruct (String.eqb_spec (clientKeyId c) I) as [<-|Hne].
      * pose proof (waiting_registerMailBox (REGISTERED_USERS st) (clientKeyId c) s) as H.
        by rewrite Hreg in H.
      * assert (Hother : waiting (apply_op (REGISTERED_USERS st)
                                    (OpRegister (clientKeyId c) s)) I
                         = waiting (REGISTERED_USERS st) I)
          by (apply waiting_other; simpl; congruence).
        cbn [apply_op] in Hother. rewrite Hreg in Hother. exact Hother.
    + cbn [fst snd on_disconnect set_conn set_registry REGISTERED_USERS].
      rewrite waiting_unbind, app_nil_r. by destruct (String.eqb (clientKeyId c) I).
  - destruct (connected c); [|apply (Hnothing false)].
    cbn [fst snd on_disconnect set_conn set_registry REGISTERED_USERS].
    by rewrite waiting_unbind, app_nil_r.
  - destruct (halted st !! s) as [[|]|]; apply (Hnothing false).
Qed.

(** X11.  For every identity and every run of the server, from any state:
    the envelopes emitted for the identity during the run, followed by those
    left in its queue, are the envelopes that were in its queue at the start
    followed by those the relay took for it during the run, in that order.
    No envelope the relay took is dropped, none is emitted twice, and none
    overtakes another. *)
Theorem nothing_lost_nothing_duplicated
    (st : Server) (evs : list (Socket * ClientEvent)) (I : string) :
  delivered_for I st evs ++ waiting (REGISTERED_USERS (run st evs).1) I
  = waiting (REGISTERED_USERS st) I ++ accepted_for I st evs.
Proof.
  revert st. induction evs as [|[s ev] evs IH]; intros st.
  - simpl. by rewrite app_nil_r.
  - rewrite run_cons. cbn [delivered_for accepted_for fst].
    rewrite <- app_assoc, IH, !app_assoc. f_equal. apply step_ledger.
Qed.

(** For instance: [alice] is registered and offline; three envelopes are
    sent to her, then she registers through socket 2. *)
Example nothing_lost_example :
  delivered_for Sample.alice Sample.with_sender
    [ (5%nat, DataEvent Sample.alice "t1" (mkData 42 "one") false);
      (5%nat, DataEvent "ghost" "t9" (mkData 1 "nine") false);
      (5%nat, DataEvent Sample.alice "t2" (mkData 3 "two") false);
      (2%nat, Connection Sample.credentials Sample.crypto);
      (2%nat, RegisterEvent (toString_base64 Sample.nonce) false) ]
  = [Sample.m1; Sample.m2].
Proof. vm_compute. reflexivity. Qed.

(** ** The key a connection presents *)

(** X12.  What the relay does with the key of a new connection.  A key that
    [importKey] rejects gets the connection refused: nothing is sent, the
    server state is what it was, and no later event of that socket other
    than a new connection does anything (the socket is a new one: no
    handler has installed a listener on it).  An empty key is no key: the
    connection is taken as anonymous, whatever [importKey] would say. *)
Theorem invalid_key_is_refused
    (st : Server) (sock : Socket) (h : Handshake) (cr : Crypto) :
  sockets st !! sock = None ->
  spki cr = None ->
  (truthy (key h) = true ->
     step st sock (Connection h cr) = (st, [Reject sock]) /\
     (halted st !! sock = None ->
      forall ev, (forall h' cr', ev <> Connection h' cr') -> step st sock ev = (st, []))) /\
  (key h = Some ""%string ->
     step st sock (Connection h cr)
     = (set_conn st sock (mkConn "ANONYMOUS" None true), [])).
Proof.
  intros Hnew Hspki. split.
  - intros Hkey. split.
    + unfold step. rewrite Hnew. unfold on_connection. by rewrite Hkey, Hspki.
    + intros Hnone ev Hev. unfold step. rewrite Hnew, Hnone. destruct ev; [|done..].
      by destruct (Hev h0 cr0).
  - intros Hkey. unfold step. rewrite Hnew. unfold on_connection.
    rewrite Hkey. simpl. by destruct (recovered h).
Qed.

Lemma invalid_key_is_refused_witness :
  step initial 9%nat (Connection (mkHandshake (Some "not a key") false) Sample.no_crypto)
  = (initial, [Reject 9%nat]).
Proof.
  apply (invalid_key_is_refused initial 9%nat
           (mkHandshake (Some "not a key") false) Sample.no_crypto eq_refl eq_refl).
  reflexivity.
Defined.

(** ** One challenge per socket *)

Lemma no_challenge_filter (sock : Socket) (out : list Action) :
  (forall i ch, Emit sock (EvChallenge i ch) ∉ out) ->
  List.filter (is_challenge_for sock) out = [].
Proof.
  induction out as [|a out IH]; intros Hno; [done|]. simpl.
  assert (Hrest : List.filter (is_challenge_for sock) out = []).
  { apply IH. intros i ch Hin. apply (Hno i ch). by right. }
  rewrite Hrest.
  destruct a as [s [| |i ch]| | | |]; simpl; try done.
  case_bool_decide as Hs; [|done]. subst s. destruct (Hno i ch). by left.
Qed.

Lemma step_other_socket (st : Server) (s : Socket) (ev : ClientEvent) (sock : Socket) :
  s <> sock -> sockets st !! sock = None ->
  sockets (step st s ev).1 !! sock = None /\
  List.filter (is_challenge_for sock) (step st s ev).2 = [].
Proof.
  intros Hne Hnew. split.
  - destruct (sockets (step st s ev).1 !! sock) as [c1|] eqn:H1; [|done].
    destruct (step_sockets_new _ _ _ _ _ H1) as [(c0 & H0 & _)|(Heq & _)]; congruence.
  - apply no_challenge_filter. intros i ch
      [(? & ? & [=])|[[=]|[[=]|[[=]|[(? & [=])|(? & ? & [= <- _ _] & _)]]]]]%step_out.
    done.
Qed.

(** X13.  In any run, from any state, at most one challenge is ever emitted
    to a socket. *)
Theorem at_most_one_challenge
    (st : Server) (evs : list (Socket * ClientEvent)) (sock : Socket) :
  (List.length (List.filter (is_challenge_for sock) (run st evs).2) <= 1)%nat.
Proof.
  revert st. induction evs as [|[s ev] evs IH]; intros st; [simpl; lia|].
  rewrite run_cons. cbn [snd]. rewrite List.filter_app, List.length_app.
  destruct (sockets st !! sock) as [c|] eqn:Hc.
  - rewrite (no_challenge_filter sock (step st s ev).2)
      by (intros i ch; by apply (step_no_challenge st s ev sock c)).
    simpl. apply IH.
  - destruct (decide (s = sock)) as [->|Hne].
    + assert (Hdata : forall peerId sessionId data,
                 List.filter (is_challenge_for sock)
                   (on_data sock peerId sessionId data st).2 = []).
      { intros peerId sessionId data. apply no_challenge_filter.
        by intros i ch [(? & ? & [=])|[[=]|(? & [=])]]%on_data_out. }
      destruct (sockets (step st sock ev).1 !! sock) as [c1|] eqn:H1.
      * rewrite (no_challenge_filter sock (run (step st sock ev).1 evs).2)
          by (intros i ch; by apply (run_no_challenge _ evs sock c1)).
        unfold step. rewrite Hc. destruct ev as [h cr|peerId sessionId data ack| |].
        -- unfold on_connection.
           destruct (truthy (key h)), (spki cr), (recovered h), (symKey cr),
             (encryptedChallenge cr); simpl;
             try case_bool_decide; simpl; lia.
        -- destruct (halted st !! sock) as [[|]|]; [rewrite Hdata|..]; simpl; lia.
        -- simpl. lia.
        -- destruct (halted st !! sock) as [[|]|]; simpl; lia.
      * assert (Hout : List.filter (is_challenge_for sock) (step st sock ev).2 = []).
        { revert H1. unfold step. rewrite Hc.
          destruct ev as [h cr|peerId sessionId data ack| |].
          - unfold on_connection.
            destruct (truthy (key h)), (spki cr), (recovered h), (symKey cr),
              (encryptedChallenge cr); simpl; try done;
              by rewrite lookup_insert_eq.
          - intros _. by destruct (halted st !! sock) as [[|]|].
          - done.
          - intros _. by destruct (halted st !! sock) as [[|]|]. }
        rewrite Hout. simpl. apply IH.
    + destruct (step_other_socket st s ev sock Hne Hc) as (_ & Hout).
      rewrite Hout. simpl. apply IH.
Qed.

(** ** Relaying to a live recipient, and who is known *)

(** X14.  In every state the relay reaches, a ['data'] event of a connected
    socket, registered or not, for a recipient whose mailbox has a live
    connection makes the server emit exactly one event, the envelope, to the
    recipient's socket; the server state is what it was, so nothing is
    queued. *)
Theorem live_relay
    (history : list (Socket * ClientEvent)) (sender : Socket) (c : Conn)
    (recipient sessionId : string) (data : Data) (ack : bool)
    (mb : Mailbox) (s : Socket) :
  let st := (run initial history).1 in
  sockets st !! sender = Some c ->
  connected c = true ->
  own (REGISTERED_USERS st) !! recipient = Some mb ->
  socket mb = Some s ->
  step st sender (DataEvent recipient sessionId data ack)
  = (st, [Emit s (EvData sessionId data)]).
Proof.
  intros st Hc Hconn Hmb Hs.
  rewrite (step_data _ _ _ _ _ _ _ Hc Hconn).
  rewrite (on_data_routes st sender recipient sessionId data mb); [by rewrite Hs| |done].
  apply consistent_quiescent, consistent_run, consistent_initial.
Qed.

Lemma live_relay_witness :
  sockets (run initial Sample.registration).1 !! 1%nat = Some Sample.alice_conn /\
  own (REGISTERED_USERS (run initial Sample.registration).1) !! Sample.alice
    = Some (mkMailbox (Some 1%nat) []) /\
  step (run initial Sample.registration).1 1%nat
       (DataEvent Sample.alice "t1" (mkData 42 "one") false)
  = ((run initial Sample.registration).1, [Emit 1%nat (EvData "t1" (mkData 42 "one"))]).
Proof.
  assert (Hc : sockets (run initial Sample.registration).1 !! 1%nat = Some Sample.alice_conn)
    by (vm_compute; reflexivity).
  assert (Hmb : own (REGISTERED_USERS (run initial Sample.registration).1) !! Sample.alice
                = Some (mkMailbox (Some 1%nat) []))
    by (vm_compute; reflexivity).
  split; [exact Hc|]. split; [exact Hmb|].
  exact (live_relay Sample.registration 1%nat Sample.alice_conn Sample.alice "t1"
           (mkData 42 "one") false (mkMailbox (Some 1%nat) []) 1%nat
           Hc eq_refl Hmb eq_refl).
Defined.

(** X15.  Once an identity has a row it is known for good: after any further
    run, a ['data'] event of a connected socket that names it is never
    answered with an error; all the server emits for it are envelopes. *)
Theorem registered_identity_stays_known
    (st : Server) (evs : list (Socket * ClientEvent)) (I : string)
    (sender : Socket) (c : Conn) (sessionId : string) (data : Data) (ack : bool) :
  hasOwn (REGISTERED_USERS st) I = true ->
  sockets (run st evs).1 !! sender = Some c ->
  connected c = true ->
  forall a, a ∈ (step (run st evs).1 sender (DataEvent I sessionId data ack)).2 ->
    exists s e, a = deliver s e.
Proof.
  intros Hrow%hasOwn_true Hc Hconn a.
  pose proof (run_keeps_rows st evs I Hrow) as Hrow'.
  rewrite (step_data _ _ _ _ _ _ _ Hc Hconn). unfold on_data.
  rewrite (proj2 (hasOwn_true _ I) Hrow'). simpl.
  destruct (sendDataTo I sessionId data (REGISTERED_USERS (run st evs).1))
    as [[R out]|] eqn:Hsend; simpl.
  - by apply (sendDataTo_out _ _ _ _ _ _ _ Hsend).
  - destruct Hrow' as [mb Hmb]. unfold sendDataTo in Hsend.
    by rewrite (get_own _ _ _ Hmb) in Hsend.
Qed.

Lemma registered_identity_stays_known_witness :
  hasOwn (REGISTERED_USERS Sample.registered) Sample.alice = true /\
  forall a,
    a ∈ (step (run Sample.registered [(1%nat, DisconnectEvent);
                                       (5%nat, Connection Sample.no_credentials
                                                 Sample.no_crypto)]).1
              5%nat (DataEvent Sample.alice "t1" (mkData 42 "one") false)).2 ->
    exists s e, a = deliver s e.
Proof.
  assert (Hrow : hasOwn (REGISTERED_USERS Sample.registered) Sample.alice = true)
    by (vm_compute; reflexivity).
  split; [exact Hrow|].
  apply (registered_identity_stays_known Sample.registered
           [(1%nat, DisconnectEvent);
            (5%nat, Connection Sample.no_credentials Sample.no_crypto)]
           Sample.alice 5%nat Sample.anonymous_conn "t1" (mkData 42 "one") false Hrow).
  - vm_compute. reflexivity.
  - reflexivity.
Defined.

Lemma on_data_error (st : Server) (s : Socket) (peerId sessionId : string) (data : Data)
    (s' : Socket) (code : Z) (message : string) :
  Emit s' (EvError code message) ∈ (on_data s peerId sessionId data st).2 ->
  s' = s /\ code = 404 /\
  hasOwn (REGISTERED_USERS st) peerId = false /\
  message = ("Peer " +:+ last4 peerId +:+ " not found") /\
  on_data s peerId sessionId data st = (st, [Emit s (EvError 404 message)]).
Proof.
  unfold on_data. destruct (hasOwn (REGISTERED_USERS st) peerId) eqn:Hown; simpl.
  - destruct (sendDataTo peerId sessionId data (REGISTERED_USERS st))
      as [[R out]|] eqn:Hsend; simpl.
    + intros Hin. by destruct (sendDataTo_out _ _ _ _ _ _ _ Hsend Hin) as (? & ? & [=]).
    + by intros [=]%list_elem_of_singleton.
  - by intros [= -> -> ->]%list_elem_of_singleton.
Qed.

(** X16.  An error event is only ever the answer to a ['data'] event that
    names an identity without a row: it goes to the sender, has code 404 and
    the short form of the name in its message, and is all that this event
    does. *)
Theorem errors_only_answer_unknown_recipients
    (st : Server) (s : Socket) (ev : ClientEvent)
    (s' : Socket) (code : Z) (message : string) :
  Emit s' (EvError code message) ∈ (step st s ev).2 ->
  s' = s /\ code = 404 /\
  exists peerId sessionId data ack,
    ev = DataEvent peerId sessionId data ack /\
    hasOwn (REGISTERED_USERS st) peerId = false /\
    message = ("Peer " +:+ last4 peerId +:+ " not found") /\
    step st s ev = (st, [Emit s (EvError 404 message)]).
Proof.
  unfold step. destruct ev as [h cr|peerId sessionId data ack|solved ack|];
    destruct (sockets st !! s) as [c|] eqn:Hc; simpl; try (by intros ?%elem_of_nil).
  - unfold on_connection.
    destruct (truthy (key h)), (spki cr) as [bytes|], (recovered h), (symKey cr),
      (encryptedChallenge cr) as [encrypted|]; simpl;
      try (by intros ?%elem_of_nil); by intros [=]%list_elem_of_singleton.
  - destruct (connected c); [|by intros ?%elem_of_nil].
    intros (-> & -> & Hown & -> & Hdata)%on_data_error.
    do 2 (split; [done|]). by exists peerId, sessionId, data, ack.
  - destruct (halted st !! s) as [[|]|]; [|by intros ?%elem_of_nil..].
    intros (-> & -> & Hown & -> & Hdata)%on_data_error.
    do 2 (split; [done|]). by exists peerId, sessionId, data, ack.
  - destruct (connected c); [|by intros ?%elem_of_nil].
    destruct (challengeBuf c) as [buf|]; [|by intros ?%elem_of_nil].
    unfold on_register. destruct (String.eqb solved (toString_base64 buf)).
    + destruct (registerMailBox (clientKeyId c) s (REGISTERED_USERS st))
        as [R out] eqn:Hreg. simpl. intros Hin.
      destruct (registerMailBox_out (REGISTERED_USERS st) (clientKeyId c) s
                  (Emit s' (EvError code message))) as [e He]; [by rewrite Hreg|done].
    + simpl. by intros [=]%list_elem_of_singleton.
  - destruct (connected c); by intros ?%elem_of_nil.
  - destruct (halted st !! s) as [[|]|]; by intros ?%elem_of_nil.
Qed.

Lemma errors_only_answer_unknown_recipients_witness :
  Emit 1%nat (EvError 404 "Peer gho not found")
    ∈ (step Sample.registered 1%nat (DataEvent "ghost" "t1" (mkData 42 "one") false)).2 /\
  hasOwn (REGISTERED_USERS Sample.registered) "ghost" = false.
Proof.
  assert (Hin : Emit 1%nat (EvError 404 "Peer gho not found")
                  ∈ (step Sample.registered 1%nat
                       (DataEvent "ghost" "t1" (mkData 42 "one") false)).2).
  { replace (step Sample.registered 1%nat
               (DataEvent "ghost" "t1" (mkData 42 "one") false)).2
      with [Emit 1%nat (EvError 404 "Peer gho not found")] by (vm_compute; reflexivity).
    by left. }
  split; [exact Hin|].
  destruct (errors_only_answer_unknown_recipients _ _ _ _ _ _ Hin)
    as (_ & _ & peerId & sessionId & data & ack & [= <- _ _ _] & Hown & _).
  exact Hown.
Defined.

(** ** The short name of a key *)

Lemma string_app_cons (x : Ascii.ascii) (a b : string) :
  (String x a +:+ b = String x (a +:+ b))%string.
Proof. reflexivity. Qed.

Lemma string_app_nil (b : string) : ("" +:+ b = b)%string.
Proof. reflexivity. Qed.

Lemma string_app_empty (a : string) : (a +:+ "" = a)%string.
Proof. induction a as [|x a IH]; [done|]. by rewrite string_app_cons, IH. Qed.

Lemma string_length_app (a b : string) :
  String.length (a +:+ b) = (String.length a + String.length b)%nat.
Proof.
  induction a as [|c a IH]; [done|].
  rewrite string_app_cons. simpl. by rewrite IH.
Qed.

Lemma string_app_assoc (a b c : string) : ((a +:+ b) +:+ c = a +:+ b +:+ c)%string.
Proof.
  induction a as [|x a IH]; [done|]. rewrite !string_app_cons. by rewrite IH.
Qed.

Lemma substring_all (s : string) : String.substring 0 (String.length s) s = s.
Proof. induction s as [|c s IH]; simpl; [done|by rewrite IH]. Qed.

Lemma substring_app_l (n m : nat) (a b : string) :
  (n + m <= String.length a)%nat ->
  String.substring n m (a +:+ b) = String.substring n m a.
Proof.
  revert n m. induction a as [|c a IH]; intros n m Hle.
  - simpl in Hle. assert (n = 0%nat) as -> by lia. assert (m = 0%nat) as -> by lia.
    rewrite string_app_nil. by destruct b.
  - rewrite string_app_cons. simpl in Hle. destruct n as [|n].
    + destruct m as [|m]; [done|]. simpl. f_equal. apply IH. lia.
    + simpl. apply IH. lia.
Qed.

Lemma substring_app_r (n m : nat) (a b : string) :
  String.substring (String.length a + n) m (a +:+ b) = String.substring n m b.
Proof. induction a as [|c a IH]; [done|]. by rewrite string_app_cons. Qed.

Lemma remove_padding_app (a b : string) :
  remove_padding (a +:+ b) = remove_padding a +:+ remove_padding b.
Proof.
  induction a as [|c a IH]; [done|]. rewrite string_app_cons. simpl.
  destruct (Ascii.eqb c "="); [done|]. by rewrite string_app_cons, IH.
Qed.

Lemma remove_padding_digit (n : N) (s : string) :
  remove_padding (String (Base64.digit n) s) = String (Base64.digit n) (remove_padding s).
Proof.
  simpl. destruct (Ascii.eqb_spec (Base64.digit n) "=") as [Heq|]; [|done].
  by destruct (base64_digit_not_pad n).
Qed.

(** The base64 text of [3 k + 1] bytes: digits, then two padding
    characters; from four bytes on there are at least four digits. *)
Lemma base64_text_of_key (buf : list Byte.byte) :
  (List.length buf mod 3 = 1)%nat ->
  exists body,
    toString_base64 buf = body +:+ "==" /\
    remove_padding body = body /\
    ((4 <= List.length buf)%nat ->
     exists pre w, body = pre +:+ w /\ String.length w = 4%nat).
Proof.
  unfold toString_base64.
  induction buf as [|a|a b|a b c l IH] using list_ind_by_three; intros Hmod.
  - done.
  - eexists (String _ (String _ "")). split; [done|].
    split; [by rewrite !remove_padding_digit|]. simpl. lia.
  - done.
  - destruct IH as (body & Hbody & Hclean & Hfour).
    { cbn [List.length] in Hmod.
      replace (S (S (S (List.length l)))) with (List.length l + 1 * 3)%nat in Hmod by lia.
      by rewrite Nat.Div0.mod_add in Hmod. }
    cbn [Base64.encode]. rewrite Hbody.
    eexists (String _ (String _ (String _ (String _ body)))).
    split; [done|]. split; [by rewrite !remove_padding_digit, Hclean|].
    intros _. destruct l as [|x [|y [|z l]]].
    + done.
    + apply (f_equal String.length) in Hbody.
      rewrite string_length_app in Hbody. simpl in Hbody.
      eexists (String _ (String _ "")), (String _ (String _ body)).
      split; [done|]. simpl. lia.
    + by vm_compute in Hmod.
    + destruct Hfour as (pre & w & -> & Hw).
      { destruct l; [by vm_compute in Hmod|simpl; lia]. }
      by eexists (String _ (String _ (String _ (String _ pre)))), w.
Qed.

(** X17.  The short name that log lines and the 404 message show for a key.
    For a key of [3 k + 1] bytes, at least four (the exported public key of
    a P-256 key has 91), whose base64 text therefore ends in two padding
    characters, [last4] is the text's last four characters before the
    padding, and the later version of [last4], which removes the padding and
    takes the last four characters, gives the same. *)
Theorem last4_of_key_text (buf : list Byte.byte) :
  (List.length buf mod 3 = 1)%nat ->
  (4 <= List.length buf)%nat ->
  exists pre w,
    toString_base64 buf = pre +:+ w +:+ "==" /\
    String.length w = 4%nat /\
    last4 (toString_base64 buf) = w /\
    last4_trimmed (toString_base64 buf) = w.
Proof.
  intros Hmod Hlen.
  destruct (base64_text_of_key buf Hmod) as (body & -> & Hclean & Hfour).
  destruct (Hfour Hlen) as (pre & w & -> & Hw). exists pre, w.
  pose proof (string_app_assoc pre w "==") as Happ.
  split; [done|]. split; [done|]. split.
  - unfold last4. rewrite Happ, !string_length_app, Hw. simpl.
    replace (String.length pre + 6 - 6)%nat with (String.length pre + 0)%nat by lia.
    replace (String.length pre + 6 - 2 - (String.length pre + 0))%nat
      with (String.length w) by lia.
    rewrite substring_app_r, substring_app_l by lia. apply substring_all.
  - unfold last4_trimmed. rewrite remove_padding_app, Hclean. simpl.
    rewrite string_app_empty.
    rewrite string_length_app, Hw.
    replace (String.length pre + 4 - 4)%nat with (String.length pre + 0)%nat by lia.
    replace (String.length pre + 4 - (String.length pre + 0))%nat
      with (String.length w) by lia.
    rewrite substring_app_r. apply substring_all.
Qed.

Lemma last4_of_key_text_witness :
  exists pre w,
    toString_base64 [Byte.x30; Byte.x59; Byte.x30; Byte.x13] = pre +:+ w +:+ "==" /\
    String.length w = 4%nat /\
    last4 (toString_base64 [Byte.x30; Byte.x59; Byte.x30; Byte.x13]) = w /\
    last4_trimmed (toString_base64 [Byte.x30; Byte.x59; Byte.x30; Byte.x13]) = w.
Proof.
  apply (last4_of_key_text [Byte.x30; Byte.x59; Byte.x30; Byte.x13]);
    vm_compute; [reflexivity|lia].
Defined.

(** ** Who receives the envelopes *)

Lemma apply_op_row_bound (R : Registry) (op : RegistryOp) (j : string)
    (mb : Mailbox) (s : Socket) :
  own (apply_op R op) !! j = Some mb -> socket mb = Some s ->
  (exists mb0, own R !! j = Some mb0 /\ socket mb0 = Some s) \/ op = OpRegister j s.
Proof.
  destruct (apply_op_shape R op)
    as [->|[(k & r & mb0 & mb1 & Hget & -> & Hsock)|(k & s1 & -> & Hown & ->)]].
  - intros Hmb Hs. left. by exists mb.
  - intros Hmb Hs.
    destruct (get_mailbox_inv _ _ _ _ Hget) as [(-> & Hrow)|(-> & _)];
      [|left; by exists mb].
    simpl in Hmb. destruct (decide (k = j)) as [->|Hne].
    + rewrite lookup_insert_eq in Hmb. injection Hmb as ->.
      destruct Hsock as [Hsame|[Hnone|(s1 & -> & Hs1)]].
      * left. exists mb0. split; [done|congruence].
      * congruence.
      * right. congruence.
    + rewrite lookup_insert_ne in Hmb by done. left. by exists mb.
  - intros Hmb Hs. unfold assign in Hmb.
    destruct (bool_decide (k = "__proto__"%string) && negb (hasOwn R k));
      [left; by exists mb|].
    simpl in Hmb. destruct (decide (k = j)) as [->|Hne].
    + rewrite lookup_insert_eq in Hmb. injection Hmb as <-. simpl in Hs. right. congruence.
    + rewrite lookup_insert_ne in Hmb by done. left. by exists mb.
Qed.

Lemma held_by_owners_later (past : list (Socket * ClientEvent)) (e : Socket * ClientEvent)
    (st : Server) :
  held_by_owners past st -> held_by_owners (past ++ [e]) st.
Proof.
  intros Hheld I mb s Hmb Hs.
  destruct (Hheld I mb s Hmb Hs) as (c & buf & ack & Hc & Hconn & Hk & Hbuf & Hin).
  exists c, buf, ack. do 4 (split; [done|]). apply elem_of_app. by left.
Qed.

Lemma held_by_owners_disconnect (past : list (Socket * ClientEvent)) (st : Server)
    (sock : Socket) (c : Conn) :
  sockets st !! sock = Some c ->
  held_by_owners past st -> held_by_owners past (on_disconnect sock c st).
Proof.
  intros Hc Hheld I mb s Hmb Hs. simpl in Hmb.
  destruct (apply_op_row_bound (REGISTERED_USERS st) (OpUnbind (clientKeyId c)) I mb s Hmb Hs)
    as [(mb0 & Hmb0 & Hs0)|[=]].
  destruct (Hheld I mb0 s Hmb0 Hs0) as (c0 & buf & ack & Hc0 & Hconn & Hk & Hbuf & Hin).
  destruct (decide (s = sock)) as [->|Hne].
  - assert (c0 = c) as -> by congruence. subst I.
    apply mailbox_own, unbind_unbound in Hmb. congruence.
  - exists c0, buf, ack. simpl. by rewrite lookup_insert_ne.
Qed.

Lemma held_by_owners_on_data (past : list (Socket * ClientEvent)) (st : Server)
    (sock : Socket) (peerId sessionId : string) (data : Data) :
  held_by_owners past st ->
  held_by_owners past (on_data sock peerId sessionId data st).1.
Proof.
  intros Hheld. unfold on_data.
  destruct (hasOwn (REGISTERED_USERS st) peerId); [|done]. simpl.
  destruct (sendDataTo peerId sessionId data (REGISTERED_USERS st))
    as [[R out]|] eqn:Hsend; [|done].
  intros I mb s Hmb Hs. simpl in Hmb.
  destruct (apply_op_row_bound (REGISTERED_USERS st) (OpSend peerId sessionId data) I mb s)
    as [(mb0 & Hmb0 & Hs0)|[=]]; [by simpl; rewrite Hsend|done|].
  by apply (Hheld I mb0 s).
Qed.

Lemma held_by_owners_step (past : list (Socket * ClientEvent)) (st : Server)
    (sock : Socket) (ev : ClientEvent) :
  held_by_owners past st -> held_by_owners (past ++ [(sock, ev)]) (step st sock ev).1.
Proof.
  intros Hheld. pose proof (held_by_owners_later past (sock, ev) st Hheld) as Hlater.
  unfold step. destruct ev as [h cr|peerId sessionId data ack|solved ack|];
    destruct (sockets st !! sock) as [c|] eqn:Hc; try done.
  - assert (Hset : forall c', held_by_owners (past ++ [(sock, Connection h cr)])
                                (set_conn st sock c')).
    { intros c' I mb s Hmb Hs.
      destruct (Hlater I mb s Hmb Hs) as (c0 & buf & ack & Hc0 & Hrest).
      exists c0, buf, ack. split; [|done]. simpl. rewrite lookup_insert_ne; [done|].
      congruence. }
    unfold on_connection.
    destruct (truthy (key h)), (spki cr), (recovered h), (symKey cr),
      (encryptedChallenge cr); simpl; done.
  - destruct (connected c); [|done]. by apply held_by_owners_on_data.
  - destruct (halted st !! sock) as [[|]|]; [|done..]. by apply held_by_owners_on_data.
  - destruct (connected c) eqn:Hconn; [|done].
    destruct (challengeBuf c) as [buf|] eqn:Hbuf; [|done]. unfold on_register.
    destruct (String.eqb_spec solved (toString_base64 buf)) as [->|Hne].
    + destruct (registerMailBox (clientKeyId c) sock (REGISTERED_USERS st))
        as [R out] eqn:Hreg. simpl.
      intros I mb s Hmb Hs. simpl in Hmb.
      destruct (apply_op_row_bound (REGISTERED_USERS st)
                  (OpRegister (clientKeyId c) sock) I mb s)
        as [(mb0 & Hmb0 & Hs0)|[= <- <-]]; [by simpl; rewrite Hreg|done| |].
      * by apply (Hlater I mb0 s).
      * exists c, buf, ack. do 4 (split; [done|]). apply elem_of_app. right. by left.
    + simpl. by apply held_by_owners_disconnect.
  - destruct (connected c); [|done]. simpl. by apply held_by_owners_disconnect.
  - by destruct (halted st !! sock) as [[|]|].
Qed.

Lemma held_by_owners_run (past evs : list (Socket * ClientEvent)) (st : Server) :
  held_by_owners past st -> held_by_owners (past ++ evs) (run st evs).1.
Proof.
  revert past st. induction evs as [|[s ev] evs IH]; intros past st Hheld.
  - by rewrite app_nil_r.
  - rewrite run_cons. cbn [fst].
    replace (past ++ (s, ev) :: evs) with ((past ++ [(s, ev)]) ++ evs)
      by (by rewrite <- app_assoc).
    by apply IH, held_by_owners_step.
Qed.

Lemma held_by_owners_reachable (history : list (Socket * ClientEvent)) :
  held_by_owners history (run initial history).1.
Proof.
  apply (held_by_owners_run [] history initial). by intros I mb s Hmb.
Qed.

(** X18.  Who receives the envelopes.  In every run of the relay from its
    initial state, an envelope is only ever emitted to a socket that is
    connected and has answered the challenge it was given with the base64
    text of the nonce (earlier in the run, or with the very ['register']
    event that releases the envelope), and the envelope is one for the
    identity of that socket: the ['data'] event that brings it names the
    socket's identity, or it is released by the socket's own registration. *)
Theorem envelopes_reach_only_the_key_holder
    (history : list (Socket * ClientEvent)) (sock : Socket) (ev : ClientEvent)
    (s : Socket) (sessionId : string) (data : Data) :
  Emit s (EvData sessionId data) ∈ (step (run initial history).1 sock ev).2 ->
  exists c buf ack,
    sockets (run initial history).1 !! s = Some c /\
    connected c = true /\
    challengeBuf c = Some buf /\
    (s, RegisterEvent (toString_base64 buf) ack) ∈ history ++ [(sock, ev)] /\
    concerns (run initial history).1 sock ev (clientKeyId c) = true.
Proof.
  pose proof (held_by_owners_reachable history) as Hheld.
  set (st := (run initial history).1) in *.
  assert (Hdata : forall peerId sid d ack,
             Emit s (EvData sessionId data) ∈ (on_data sock peerId sid d st).2 ->
             exists c buf ack0,
               sockets st !! s = Some c /\ connected c = true /\
               challengeBuf c = Some buf /\
               (s, RegisterEvent (toString_base64 buf) ack0)
                 ∈ history ++ [(sock, DataEvent peerId sid d ack)] /\
               String.eqb peerId (clientKeyId c) = true).
  { intros peerId sid d ack. unfold on_data.
    destruct (own (REGISTERED_USERS st) !! peerId) as [mb|] eqn:Hmb.
    - rewrite (proj2 (hasOwn_true _ peerId)) by (by rewrite Hmb). simpl.
      destruct (socket mb) as [s0|] eqn:Hs0.
      + rewrite (sendDataTo_bound _ _ sid d _ _ _ (get_own _ _ _ Hmb) Hs0). simpl.
        intros (e & [= <- _ _] & _)%list_elem_of_fmap.
        destruct (Hheld peerId mb s Hmb Hs0)
          as (c0 & buf & ack0 & Hc0 & Hconn & Hk & Hbuf & Hin).
        exists c0, buf, ack0. do 3 (split; [done|]).
        split; [apply elem_of_app; by left|]. rewrite Hk. apply String.eqb_refl.
      + rewrite (sendDataTo_unbound _ _ sid d _ _ (get_own _ _ _ Hmb) Hs0). simpl.
        by intros ?%elem_of_nil.
    - rewrite (proj2 (hasOwn_false _ peerId) Hmb). simpl.
      by intros [=]%list_elem_of_singleton. }
  unfold step, concerns. destruct ev as [h cr|peerId sid d ack|solved ack|];
    destruct (sockets st !! sock) as [c|] eqn:Hc; simpl; try (by intros ?%elem_of_nil).
  - unfold on_connection.
    destruct (truthy (key h)), (spki cr) as [bytes|], (recovered h), (symKey cr),
      (encryptedChallenge cr) as [encrypted|]; simpl;
      try (by intros ?%elem_of_nil); by intros [=]%list_elem_of_singleton.
  - destruct (connected c); [|by intros ?%elem_of_nil]. by apply Hdata.
  - destruct (halted st !! sock) as [[|]|]; [|by intros ?%elem_of_nil..]. by apply Hdata.
  - destruct (connected c) eqn:Hconn; [|by intros ?%elem_of_nil].
    destruct (challengeBuf c) as [buf|] eqn:Hbuf; [|by intros ?%elem_of_nil].
    unfold on_register.
    destruct (String.eqb_spec solved (toString_base64 buf)) as [->|Hne].
    + destruct (registerMailBox (clientKeyId c) sock (REGISTERED_USERS st))
        as [R out] eqn:Hreg. simpl. intros Hin.
      destruct (registerMailBox_out (REGISTERED_USERS st) (clientKeyId c) sock
                  (Emit s (EvData sessionId data))) as [e [= -> _ _]];
        [by rewrite Hreg|].
      exists c, buf, ack. do 3 (split; [done|]).
      split; [apply elem_of_app; right; by left|]. apply String.eqb_refl.
    + simpl. by intros [=]%list_elem_of_singleton.
  - destruct (connected c); by intros ?%elem_of_nil.
  - destruct (halted st !! sock) as [[|]|]; by intros ?%elem_of_nil.
Qed.

Lemma envelopes_reach_only_the_key_holder_witness :
  exists c buf ack,
    sockets (run initial Sample.registration).1 !! 1%nat = Some c /\
    connected c = true /\
    challengeBuf c = Some buf /\
    (1%nat, RegisterEvent (toString_base64 buf) ack)
      ∈ Sample.registration
        ++ [(1%nat, DataEvent Sample.alice "t1" (mkData 42 "one") false)] /\
    concerns (run initial Sample.registration).1 1%nat
      (DataEvent Sample.alice "t1" (mkData 42 "one") false) (clientKeyId c) = true.
Proof.
  apply (envelopes_reach_only_the_key_holder Sample.registration 1%nat
           (DataEvent Sample.alice "t1" (mkData 42 "one") false) 1%nat "t1" (mkData 42 "one")).
  replace (step (run initial Sample.registration).1 1%nat
             (DataEvent Sample.alice "t1" (mkData 42 "one") false)).2
    with [Emit 1%nat (EvData "t1" (mkData 42 "one"))] by (vm_compute; reflexivity).
  by left.
Defined.

(** ** A handshake that stops at the key agreement *)


